(** * pg-large-object: a shallow embedding of the streaming facade

    The library is a thin JavaScript layer over PostgreSQL's large-object
    procedures.  Every operation hands one prepared statement to the query
    adapter ([this._query(config, callback)]) and finishes in the callback
    the driver invokes when the answer arrives.

    The embedding keeps that shape:
    - JavaScript data is a small universe of values ([value]);
    - what one synchronous run of library code does is a tree of effects
      ([act]): adapter calls with their continuation, stream pushes, events,
      console output, promise settlement, a normal return or a throw;
    - [exec] runs such a tree against a [world] (the driver's queue of
      unanswered statements, the promises and the observable trace), and
      [tick] lets the driver answer the oldest statement and run its
      callback, the way the single connection serialises requests;
      [tick_pgPromise] does the same through [pgPromiseAdapter], for a
      manager made from a pg-promise transaction. *)

From Stdlib Require Import ZArith Lia Bool DecimalString.
From stdpp Require Import base option list strings gmap.

Open Scope Z_scope.

Set Warnings "-register-all".

(** ** JavaScript values *)

(** Plain data: what the database driver passes to a query callback (an
    error, a result with its rows).  A string is the sequence of its UTF-16
    code units, each of them below 256 here, so that its length is the
    number of its characters. *)
Inductive datum : Type :=
| DUndefined
| DNull
| DBool (b : bool)
| DNum (n : Z)
| DNaN
| DStr (s : string)
| DBuffer (bytes : list Byte.byte)
| DError (message : string)
| DObject (fields : list (string * datum))
| DArray (items : list datum).

(** Every value the library handles ([value]) and what one synchronous run
    of code does, in order ([act]).
    - The configuration object handed to the query adapter is
      [{name, text, values}].
    - A large object is [{_query, oid, _fd}]; its [_query] is the adapter
      itself, which is the [Query] effect.
    - A stream carries the large object it is bound to, the options its
      constructor passed to the stream framework and the listeners
      registered with [on].
    - [Emit] is an event on its way to the listeners of a stream; whether
      there are any is [emit]'s to find out. *)
Inductive value : Type :=
| VData (d : datum)
| VArray (items : list value)
| VLargeObject (o : LargeObject)
| VReadStream (s : stream_obj)
| VWriteStream (s : stream_obj)
with LargeObject : Type :=
| Build_LargeObject (oid : value) (_fd : value)
with stream_obj : Type :=
| Stream (_largeObject : LargeObject) (options : list (string * value))
         (listeners : list (string * act))
with query : Type :=
| Build_query (name : string) (text : string) (values : list value)
with act : Type :=
| Ret
| Throw (e : value)
| Query (q : query) (cb : option (datum -> datum -> act)) (k : act)
| Push (chunk : value) (k : act)
| Emit (event : string) (arg : value) (k : act)
| ConsoleError (msg : string) (arg : value) (k : act)
| Resolve (p : nat) (v : value) (k : act)
| Reject (p : nat) (e : value) (k : act).

Coercion VData : datum >-> value.

Definition oid (o : LargeObject) : value := let 'Build_LargeObject x _ := o in x.
Definition _fd (o : LargeObject) : value := let 'Build_LargeObject _ x := o in x.
Definition _largeObject (s : stream_obj) : LargeObject := let 'Stream x _ _ := s in x.
Definition options (s : stream_obj) : list (string * value) := let 'Stream _ x _ := s in x.
Definition listeners (s : stream_obj) : list (string * act) := let 'Stream _ _ x := s in x.
Definition name (q : query) : string := let 'Build_query x _ _ := q in x.
Definition text (q : query) : string := let 'Build_query _ x _ := q in x.
Definition values (q : query) : list value := let 'Build_query _ _ x := q in x.

Definition undefined : value := VData DUndefined.
Definition null : value := VData DNull.

(** [if (v)], [!v], [v || d], [c ? a : b]: objects are truthy. *)
Definition truthy (v : value) : bool :=
  match v with
  | VData d =>
      match d with
      | DUndefined | DNull | DNaN => false
      | DBool b => b
      | DNum n => negb (n =? 0)
      | DStr s => negb (String.eqb s "")
      | DBuffer _ | DError _ | DObject _ | DArray _ => true
      end
  | VArray _ | VLargeObject _ | VReadStream _ | VWriteStream _ => true
  end.

Definition js_or (a b : value) : value := if truthy a then a else b.

(** [Buffer.isBuffer(v)] *)
Definition isBuffer (v : value) : bool :=
  match v with VData (DBuffer _) => true | _ => false end.

(** A synchronous piece of code either returns or throws. *)
Inductive completion (A : Type) : Type :=
| Normal (a : A)
| Thrown (e : value).
Arguments Normal {A} a.
Arguments Thrown {A} e.

Definition TypeError : value := VData (DError "TypeError").

Fixpoint assoc {A : Type} (dflt : A) (k : string) (fields : list (string * A)) : A :=
  match fields with
  | [] => dflt
  | (k', v) :: rest => if String.eqb k k' then v else assoc dflt k rest
  end.

Definition length_prop (prop : string) (n : nat) : value :=
  if String.eqb prop "length" then VData (DNum (Z.of_nat n)) else undefined.

(** [v.prop]: reading a property of [undefined] or [null] throws, a property
    that is not there reads as [undefined]. *)
Definition get_prop (v : value) (prop : string) : completion value :=
  match v with
  | VData d =>
      match d with
      | DUndefined | DNull => Thrown TypeError
      | DObject fields => Normal (VData (assoc DUndefined prop fields))
      | DBuffer bytes => Normal (length_prop prop (length bytes))
      | DStr s => Normal (length_prop prop (String.length s))
      | DArray items => Normal (length_prop prop (length items))
      | DBool _ | DNum _ | DNaN | DError _ => Normal undefined
      end
  | VArray items => Normal (length_prop prop (length items))
  | VLargeObject o =>
      Normal (if String.eqb prop "oid" then oid o
              else if String.eqb prop "_fd" then _fd o else undefined)
  | VReadStream s | VWriteStream s =>
      Normal (if String.eqb prop "_largeObject" then VLargeObject (_largeObject s)
              else undefined)
  end.

(** The property key an index is turned into: its decimal numeral. *)
Definition index_key (i : nat) : string := NilZero.string_of_uint (Nat.to_uint i).

(** [v[i]]: an element of an array, a character of a string, a byte of a
    buffer, the property of an object under the key of [i]; [undefined]
    where there is none. *)
Definition get_index (v : value) (i : nat) : completion value :=
  match v with
  | VData d =>
      match d with
      | DUndefined | DNull => Thrown TypeError
      | DArray items => Normal (VData (nth i items DUndefined))
      | DStr s =>
          Normal (match String.get i s with
                  | Some c => VData (DStr (String c EmptyString))
                  | None => undefined
                  end)
      | DBuffer bytes =>
          Normal (match bytes !! i with
                  | Some b => VData (DNum (Z.of_N (Byte.to_N b)))
                  | None => undefined
                  end)
      | DObject fields => Normal (VData (assoc DUndefined (index_key i) fields))
      | DBool _ | DNum _ | DNaN | DError _ => Normal undefined
      end
  | VArray items => Normal (nth i items undefined)
  | VLargeObject _ | VReadStream _ | VWriteStream _ => Normal undefined
  end.

(** [result.rows[0].col], as the query callbacks of the library read it. *)
Definition first_row_col (result : value) (col : string) : completion value :=
  match get_prop result "rows" with
  | Thrown e => Thrown e
  | Normal rows =>
      match get_index rows 0 with
      | Thrown e => Thrown e
      | Normal row => get_prop row col
      end
  end.

(** [a < b] for what the library compares: [a] is the [.length] of what
    [loread] returned, a number for a buffer or a string and [undefined]
    for other data; [b] is a number.  [undefined] converts to NaN, and every
    comparison with NaN is false. *)
Definition js_lt (a : value) (b : Z) : bool :=
  match a with
  | VData (DNum n) => n <? b
  | _ => false
  end.

(** Node-style callback [function(error, arg1, arg2)]; an argument that a
    call leaves out is [undefined]. *)
Definition Callback : Type := value -> value -> value -> act.

(** [a; b]: [b] runs once [a] has returned; a throw of [a] skips it. *)
Fixpoint seq (a b : act) : act :=
  match a with
  | Ret => b
  | Throw e => Throw e
  | Query q cb k => Query q cb (seq k b)
  | Push c k => Push c (seq k b)
  | Emit n v k => Emit n v (seq k b)
  | ConsoleError m v k => ConsoleError m v (seq k b)
  | Resolve p v k => Resolve p v (seq k b)
  | Reject p e k => Reject p e (seq k b)
  end.

(** [try { a } catch (e) { h(e) }], and a promise chain [.then(a).catch(h)]:
    what [a] did before it threw stays done. *)
Fixpoint catch_ (a : act) (h : value -> act) : act :=
  match a with
  | Ret => Ret
  | Throw e => h e
  | Query q cb k => Query q cb (catch_ k h)
  | Push c k => Push c (catch_ k h)
  | Emit n v k => Emit n v (catch_ k h)
  | ConsoleError m v k => ConsoleError m v (catch_ k h)
  | Resolve p v k => Resolve p v (catch_ k h)
  | Reject p e k => Reject p e (catch_ k h)
  end.

(** ** The world the library runs in *)

Inductive event : Type :=
| EQuery (q : query)
| EPush (chunk : value)
| EEmit (name : string) (arg : value)
| EConsoleError (msg : string) (arg : value)
| EUncaught (e : value).

Inductive promise_state : Type :=
| Pending
| Fulfilled (v : value)
| Rejected (e : value).

(** [server] is the state of the database behind the adapter, [pending] the
    statements handed to the adapter and not answered yet (oldest first,
    each with the callback given for it), [trace] what an observer of the
    adapter, the stream framework and the console has seen so far. *)
Record world (DB : Type) : Type := Build_world {
  server : DB;
  pending : list (query * option (datum -> datum -> act));
  promises : list promise_state;
  trace : list event
}.
Arguments Build_world {DB} _ _ _ _.
Arguments server {DB} _.
Arguments pending {DB} _.
Arguments promises {DB} _.
Arguments trace {DB} _.

Section Runtime.
Context {DB : Type}.

Definition log (e : event) (w : world DB) : world DB :=
  Build_world (server w) (pending w) (promises w) (trace w ++ [e]).

(** [this._query(q, cb)]: the statement joins the driver's queue. *)
Definition enqueue (q : query) (cb : option (datum -> datum -> act))
    (w : world DB) : world DB :=
  Build_world (server w) (pending w ++ [(q, cb)]) (promises w)
              (trace w ++ [EQuery q]).

(** A promise settles once; later [resolve]/[reject] calls are ignored. *)
Definition settle (p : nat) (st : promise_state) (w : world DB) : world DB :=
  match promises w !! p with
  | Some Pending =>
      Build_world (server w) (pending w) (<[p := st]> (promises w)) (trace w)
  | _ => w
  end.

Fixpoint exec (a : act) (w : world DB) : world DB * completion unit :=
  match a with
  | Ret => (w, Normal tt)
  | Throw e => (w, Thrown e)
  | Query q cb k => exec k (enqueue q cb w)
  | Push c k => exec k (log (EPush c) w)
  | Emit n v k => exec k (log (EEmit n v) w)
  | ConsoleError m v k => exec k (log (EConsoleError m v) w)
  | Resolve p v k => exec k (settle p (Fulfilled v) w)
  | Reject p e k => exec k (settle p (Rejected e) w)
  end.

(** Code the driver or the event loop calls: a throw has no caller to
    catch it and surfaces as an uncaught exception. *)
Definition run_callback (a : act) (w : world DB) : world DB :=
  match exec a w with
  | (w', Normal _) => w'
  | (w', Thrown e) => log (EUncaught e) w'
  end.

(** [new Promise(executor)]: the executor runs at once; when it throws, the
    promise is rejected with what was thrown and the constructor returns
    normally. *)
Definition new_Promise (executor : (value -> act) -> (value -> act) -> act)
    (w : world DB) : world DB * completion nat :=
  let p := length (promises w) in
  let w0 := Build_world (server w) (pending w) (promises w ++ [Pending])
                        (trace w) in
  match exec (executor (fun v => Resolve p v Ret) (fun e => Reject p e Ret)) w0 with
  | (w1, Normal _) => (w1, Normal p)
  | (w1, Thrown e) => (settle p (Rejected e) w1, Normal p)
  end.

(** The driver answers the oldest unanswered statement, as node-postgres
    does when the manager was made from a [pg] client: [respond] is the
    database ([err] and [result] as the driver passes them on), and the
    callback registered for the statement runs with the answer.  When no
    callback was registered, a success stays with the driver, and an error
    has nobody to go to: the driver raises it, uncaught. *)
Definition tick (respond : DB -> query -> DB * (datum * datum))
    (w : world DB) : option (world DB) :=
  match pending w with
  | [] => None
  | (q, cb) :: rest =>
      let '(s', (err, result)) := respond (server w) q in
      let w' := Build_world s' rest (promises w) (trace w) in
      Some (match cb with
            | None => if truthy err then log (EUncaught err) w' else w'
            | Some f => run_callback (f err result) w'
            end)
  end.

(** [n] answers in a row; stops early when nothing is left to answer. *)
Fixpoint ticks (respond : DB -> query -> DB * (datum * datum)) (n : nat)
    (w : world DB) : world DB :=
  match n with
  | O => w
  | S n' =>
      match tick respond w with
      | None => w
      | Some w' => ticks respond n' w'
      end
  end.

(** The adapter calls seen so far. *)
Definition queries_of (w : world DB) : list query :=
  omap (fun e => match e with EQuery q => Some q | _ => None end) (trace w).

End Runtime.

(** ** What the host provides: events, streams *)

(** [stream.on(event, listener)] *)
Definition on (s : stream_obj) (event : string) (listener : act) : stream_obj :=
  Stream (_largeObject s) (options s) (listeners s ++ [(event, listener)]).

(** The host emitting [event] on a stream: the listeners registered for it
    run in the order of their registration. *)
Fixpoint dispatch (event : string) (ls : list (string * act)) : act :=
  match ls with
  | [] => Ret
  | (e, f) :: rest =>
      if String.eqb e event then seq f (dispatch event rest)
      else dispatch event rest
  end.

(** What [emit('error', arg)] throws when nobody listens: [arg] itself when
    it is an error object, an error that wraps it otherwise. *)
Definition unhandled_error (arg : value) : value :=
  match arg with
  | VData (DError _) => arg
  | _ => VData (DError "Unhandled error.")
  end.

Definition has_listener (s : stream_obj) (event : string) : bool :=
  existsb (fun l => String.eqb (fst l) event) (listeners s).

(** [this.emit(event, arg)], the event emitter of the host: the listeners
    registered for [event] run, in the order of their registration; without
    any, an ['error'] event is thrown and any other event is dropped.  A
    listener is kept as what it does, whatever its argument. *)
Definition emit (this : stream_obj) (event : string) (arg : value) : act :=
  if has_listener this event then Emit event arg (dispatch event (listeners this))
  else if String.eqb event "error" then Throw (unhandled_error arg)
  else Ret.

(** [callback(...)] where [callback] may be [undefined]. *)
Definition call (cb : option Callback) (err a1 a2 : value) : act :=
  match cb with
  | Some f => f err a1 a2
  | None => Throw TypeError
  end.

(** A parameter that the caller may fill with a plain value or a function. *)
Inductive arg : Type :=
| AValue (v : value)
| AFunction (f : Callback).

(** ** lib/promiseFromCallback.js *)

(** [options && options.twoArgs] *)
Definition options_twoArgs (opts : value) : value :=
  if truthy opts then
    match get_prop opts "twoArgs" with
    | Normal v => v
    | Thrown _ => undefined
    end
  else opts.

Definition promiseFromCallback {DB Self : Type}
    (fn : Self -> Callback -> act) (self : Self) (opts : value)
    (w : world DB) : world DB * completion nat :=
  let twoArgs := options_twoArgs opts in
  new_Promise (fun resolve reject =>
    let callback : Callback := fun error arg1 arg2 =>
      if truthy error then reject error
      else if truthy twoArgs then resolve (VArray [arg1; arg2])
      else resolve arg1 in
    fn self callback) w.

(** ** lib/ReadStream.js and lib/WriteStream.js: the constructors *)

Definition default_bufferSize : Z := 16384.

Definition new_ReadStream (largeObject : LargeObject) (bufferSize : value) : stream_obj :=
  Stream largeObject
         [("highWaterMark", js_or bufferSize (VData (DNum default_bufferSize)));
          ("encoding", null);
          ("objectMode", VData (DBool false))]
         [].

Definition new_WriteStream (largeObject : LargeObject) (bufferSize : value) : stream_obj :=
  Stream largeObject
         [("highWaterMark", js_or bufferSize (VData (DNum default_bufferSize)));
          ("decodeStrings", VData (DBool true));
          ("objectMode", VData (DBool false))]
         [].

Definition highWaterMark (s : stream_obj) : value :=
  assoc undefined "highWaterMark" (options s).

(** ** lib/LargeObject.js *)

Module LargeObject.

Definition SEEK_SET : Z := 0.
Definition SEEK_CUR : Z := 1.
Definition SEEK_END : Z := 2.

(** [callback ? function(err, result) { callback(err); } : undefined] *)
Definition err_only (cb : option Callback) : option (datum -> datum -> act) :=
  match cb with
  | Some callback => Some (fun (err result : datum) => callback err undefined undefined)
  | None => None
  end.

(** [function(err, result) { if (err) return callback(err);
      callback(null, result.rows[0].col); }] *)
Definition first_col (col : string) (callback : Callback) : datum -> datum -> act :=
  fun (err result : datum) =>
    if truthy err then callback err undefined undefined
    else match first_row_col result col with
         | Thrown e => Throw e
         | Normal v => callback null v undefined
         end.

Definition close (this : LargeObject) (callback : option Callback) : act :=
  Query (Build_query "npg_lo_close" "SELECT lo_close($1) as ok" [_fd this])
        (err_only callback) Ret.

Definition read (this : LargeObject) (length : value) (callback : Callback) : act :=
  Query (Build_query "npg_loread" "SELECT loread($1, $2) as data" [_fd this; length])
        (Some (first_col "data" callback)) Ret.

Definition write (this : LargeObject) (buffer : value) (callback : option Callback) : act :=
  Query (Build_query "npg_lowrite" "SELECT lowrite($1, $2)" [_fd this; buffer])
        (err_only callback) Ret.

Definition seek (this : LargeObject) (position ref : value)
    (callback : option Callback) : act :=
  Query (Build_query "npg_lo_lseek64" "SELECT lo_lseek64($1, $2, $3) as location"
                     [_fd this; position; ref])
        (match callback with
         | Some callback => Some (first_col "location" callback)
         | None => None
         end) Ret.

Definition tell (this : LargeObject) (callback : Callback) : act :=
  Query (Build_query "npg_lo_tell64" "SELECT lo_tell64($1) as location" [_fd this])
        (Some (first_col "location" callback)) Ret.

Definition size_text : string :=
  "SELECT lo_lseek64($1, location, 0), seek.size FROM " ++
  "(SELECT lo_lseek64($1, 0, 2) AS SIZE, tell.location FROM " ++
  "(SELECT lo_tell64($1) AS location) tell) " ++
  "seek;".

Definition size (this : LargeObject) (callback : Callback) : act :=
  Query (Build_query "npg_size" size_text [_fd this])
        (Some (first_col "size" callback)) Ret.

Definition truncate (this : LargeObject) (length : value)
    (callback : option Callback) : act :=
  Query (Build_query "npg_lo_truncate64" "SELECT lo_truncate64($1, $2)"
                     [_fd this; length])
        (err_only callback) Ret.

Definition getReadableStream (this : LargeObject) (bufferSize : value) : stream_obj :=
  new_ReadStream this bufferSize.

Definition getWritableStream (this : LargeObject) (bufferSize : value) : stream_obj :=
  new_WriteStream this bufferSize.

Definition closeAsync {DB} (this : LargeObject) : world DB -> world DB * completion nat :=
  promiseFromCallback (fun this callback => close this (Some callback)) this undefined.

Definition readAsync {DB} (this : LargeObject) (length : value)
    : world DB -> world DB * completion nat :=
  promiseFromCallback (fun this callback => read this length callback) this undefined.

Definition sizeAsync {DB} (this : LargeObject) : world DB -> world DB * completion nat :=
  promiseFromCallback (fun this callback => size this callback) this undefined.

Definition tellAsync {DB} (this : LargeObject) : world DB -> world DB * completion nat :=
  promiseFromCallback (fun this callback => tell this callback) this undefined.

Definition writeAsync {DB} (this : LargeObject) (buffer : value)
    : world DB -> world DB * completion nat :=
  promiseFromCallback (fun this callback => write this buffer (Some callback))
    this undefined.

Definition seekAsync {DB} (this : LargeObject) (position ref : value)
    : world DB -> world DB * completion nat :=
  promiseFromCallback (fun this callback => seek this position ref (Some callback))
    this undefined.

Definition truncateAsync {DB} (this : LargeObject) (length : value)
    : world DB -> world DB * completion nat :=
  promiseFromCallback (fun this callback => truncate this length (Some callback))
    this undefined.

End LargeObject.

(** ** lib/ReadStream.js *)

Module ReadStream.

Definition _read (this : stream_obj) (length : Z) : act :=
  if length <=? 0 then Throw (VData (DStr "Illegal Argument"))
  else
    LargeObject.read (_largeObject this) (VData (DNum length))
      (fun error data _ =>
         if truthy error then emit this "error" error
         else
           Push data
             (match get_prop data "length" with
              | Thrown e => Throw e
              | Normal len => if js_lt len length then Push null Ret else Ret
              end)).

End ReadStream.

(** ** lib/WriteStream.js *)

Module WriteStream.

Definition _write (this : stream_obj) (chunk : value) (encoding : value)
    (callback : Callback) : act :=
  if negb (isBuffer chunk) then Throw (VData (DStr "Illegal Argument"))
  else LargeObject.write (_largeObject this) chunk (Some callback).

End WriteStream.

(** ** lib/LargeObjectManager.js *)

Module LargeObjectManager.

(** How the promise of [tx.query(options)] settled. *)
Inductive tx_answer : Type :=
| TxFulfilled (result : datum)
| TxRejected (error : value).

(** [function({ rows }) { ... }]: destructuring the parameter. *)
Definition destructure_rows (result : datum) : completion datum :=
  match result with
  | DUndefined | DNull => Thrown TypeError
  | DObject fields => Normal (assoc DUndefined "rows" fields)
  | _ => Normal DUndefined
  end.

(** [pgPromiseAdapter(tx)]: what its [query(options, callback)] does once the
    promise of [tx.query(options)] has settled,
    [.then(function({ rows }) { callback(null, {rows: rows}); })
     .catch(function(error) { callback(error); })]. *)
Definition pgPromiseAdapter (callback : value -> value -> act)
    (answer : tx_answer) : act :=
  match answer with
  | TxFulfilled result =>
      catch_ (match destructure_rows result with
              | Thrown e => Throw e
              | Normal rows => callback null (VData (DObject [("rows", rows)]))
              end)
             (fun error => callback error undefined)
  | TxRejected error => callback error undefined
  end.

Definition WRITE : Z := 0x00020000.
Definition READ : Z := 0x00040000.
Definition READWRITE : Z := Z.lor 0x00020000 0x00040000.

Definition open (oid : value) (mode : value) (callback : Callback) : act :=
  if negb (truthy oid) then Throw (VData (DError "Illegal Argument"))
  else
    Query (Build_query "npg_lo_open" "SELECT lo_open($1, $2) AS fd" [oid; mode])
          (Some (fun (err result : datum) =>
             if truthy err then callback err undefined undefined
             else match first_row_col result "fd" with
                  | Thrown e => Throw e
                  | Normal fd =>
                      callback null (VLargeObject (Build_LargeObject oid fd)) undefined
                  end))
          Ret.

Definition openAsync {DB} (oid mode : value) : world DB -> world DB * completion nat :=
  promiseFromCallback (fun (_ : unit) callback => open oid mode callback) tt undefined.

Definition create (callback : Callback) : act :=
  Query (Build_query "npg_lo_creat" "SELECT lo_creat($1) AS oid"
                     [VData (DNum READWRITE)])
        (Some (fun (err result : datum) =>
           if truthy err then callback err undefined undefined
           else match first_row_col result "oid" with
                | Thrown e => Throw e
                | Normal oid => callback null oid undefined
                end))
        Ret.

Definition createAsync {DB} : world DB -> world DB * completion nat :=
  promiseFromCallback (fun (_ : unit) callback => create callback) tt undefined.

Definition unlink (oid : value) (callback : option Callback) : act :=
  if negb (truthy oid) then Throw (VData (DError "Illegal Argument"))
  else
    Query (Build_query "npg_lo_unlink" "SELECT lo_unlink($1) as ok" [oid])
          (match callback with
           | Some callback =>
               Some (fun (err result : datum) => callback err undefined undefined)
           | None => None
           end)
          Ret.

Definition unlinkAsync {DB} (oid : value) : world DB -> world DB * completion nat :=
  promiseFromCallback (fun (_ : unit) callback => unlink oid (Some callback)) tt undefined.

(** [if (typeof bufferSize === 'function') { callback = bufferSize;
      bufferSize = undefined; }] *)
Definition shift_args (bufferSize : arg) (callback : option Callback)
    : value * option Callback :=
  match bufferSize with
  | AFunction f => (undefined, Some f)
  | AValue v => (v, callback)
  end.

Definition close_warning : string := "Warning: closing a large object failed:".

(** The listener both convenience operations register:
    [function() { obj.close(function(err) { if (err) console.error(...); }); }] *)
Definition close_when_done (obj : LargeObject) : act :=
  LargeObject.close obj
    (Some (fun err _ _ =>
       if truthy err then ConsoleError close_warning err Ret else Ret)).

(** [obj.method(...)] on what a callback received as [obj]. *)
Definition with_LargeObject (obj : value) (k : LargeObject -> act) : act :=
  match obj with
  | VLargeObject o => k o
  | _ => Throw TypeError
  end.

Definition openAndReadableStream (oid : value) (bufferSize : arg)
    (callback : option Callback) : act :=
  let '(bufferSize, callback) := shift_args bufferSize callback in
  open oid (VData (DNum READ)) (fun err obj _ =>
    if truthy err then call callback err undefined undefined
    else
      with_LargeObject obj (fun obj =>
        LargeObject.size obj (fun err size _ =>
          if truthy err then call callback err undefined undefined
          else
            let stream := LargeObject.getReadableStream obj bufferSize in
            let stream := on stream "end" (close_when_done obj) in
            call callback null size (VReadStream stream)))).

Definition openAndReadableStreamAsync {DB} (oid : value) (bufferSize : arg)
    : world DB -> world DB * completion nat :=
  promiseFromCallback
    (fun (_ : unit) callback => openAndReadableStream oid bufferSize (Some callback))
    tt (VData (DObject [("twoArgs", DBool true)])).

Definition createAndWritableStream (bufferSize : arg)
    (callback : option Callback) : act :=
  let '(bufferSize, callback) := shift_args bufferSize callback in
  create (fun err oid _ =>
    if truthy err then call callback err undefined undefined
    else
      open oid (VData (DNum WRITE)) (fun err obj _ =>
        if truthy err then call callback err undefined undefined
        else
          with_LargeObject obj (fun obj =>
            let stream := LargeObject.getWritableStream obj bufferSize in
            let stream := on stream "finish" (close_when_done obj) in
            call callback null oid (VWriteStream stream)))).

Definition createAndWritableStreamAsync {DB} (bufferSize : arg)
    : world DB -> world DB * completion nat :=
  promiseFromCallback
    (fun (_ : unit) callback => createAndWritableStream bufferSize (Some callback))
    tt (VData (DObject [("twoArgs", DBool true)])).

End LargeObjectManager.

(** ** The pg-promise adapter in the driver's place

    When the manager was made from a pg-promise transaction, [_query] is
    [pgPromiseAdapter(tx)], and the answer reaches the query callback through
    it. *)

(** A value as the query callback takes it.  What the adapter hands over is
    plain data, but for a value that a caller's callback threw: an array or
    an object of the library among those is taken as an error object. *)
Definition as_datum (v : value) : datum :=
  match v with
  | VData d => d
  | VArray _ | VLargeObject _ | VReadStream _ | VWriteStream _ => DError "[object]"
  end.

(** The [callback] of [query(options, callback)]: the query callback that
    was given, or [undefined], which cannot be called. *)
Definition adapter_callback (cb : option (datum -> datum -> act))
    : value -> value -> act :=
  fun err result =>
    match cb with
    | Some f => f (as_datum err) (as_datum result)
    | None => Throw TypeError
    end.

(** The promise of [tx.query]: rejected with the error of the database,
    fulfilled with its result. *)
Definition tx_answer_of (err result : datum) : LargeObjectManager.tx_answer :=
  if truthy err then LargeObjectManager.TxRejected err
  else LargeObjectManager.TxFulfilled result.

(** [tick] with the adapter between the database and the query callback; a
    throw that the adapter does not catch is an unhandled rejection. *)
Definition tick_pgPromise {DB : Type} (respond : DB -> query -> DB * (datum * datum))
    (w : world DB) : option (world DB) :=
  match pending w with
  | [] => None
  | (q, cb) :: rest =>
      let '(s', (err, result)) := respond (server w) q in
      Some (run_callback
              (LargeObjectManager.pgPromiseAdapter (adapter_callback cb)
                 (tx_answer_of err result))
              (Build_world s' rest (promises w) (trace w)))
  end.

(** ** The database behind the adapter

    The statements of [LargeObject.read], [LargeObject.tell],
    [LargeObject.seek] and [LargeObject.size] are evaluated by PostgreSQL,
    which is not part of the library.  [Pg] is the part of the server they
    touch: a table of large objects and a table of open descriptors with
    their position.  The server reads the text of a statement ([parse]) and
    runs it ([run_statement]); [sql_read], [sql_tell], [sql_seek] and
    [sql_size] say in one piece what the four statements of
    lib/LargeObject.js come to when they are run (lemmas [run_read],
    [run_tell], [run_seek], [run_size]).  The server procedures they call
    ([loread], [lo_tell64], [lo_lseek64]) are not in the source and are
    modelled. *)

Module Pg.

Record descriptor : Type := Build_descriptor {
  d_oid : Z;
  d_pos : Z
}.

Record state : Type := Build_state {
  objects : gmap Z (list Byte.byte);
  descriptors : gmap Z descriptor
}.

(** Largest size and seek target the server accepts (INT_MAX pages of
    2048 bytes). *)
Definition MAX_LARGE_OBJECT_SIZE : Z := 0x7FFFFFFF * 2048.

Definition object_size (s : state) (fd : Z) : option Z :=
  d ← descriptors s !! fd;
  content ← objects s !! d_oid d;
  Some (Z.of_nat (length content)).

(** Modelled from the spec: the server procedure behind [tell()], which is
    PostgreSQL's and not in the source.  It returns the current position and
    changes nothing; a descriptor that is not open is an error. *)
Definition lo_tell64 (s : state) (fd : Z) : option Z :=
  d ← descriptors s !! fd; Some (d_pos d).

(** Modelled from the spec: the server procedure behind [seek()], which is
    PostgreSQL's and not in the source.  The origin [whence] is 0 from the
    start, 1 from the current position, 2 from the end; [offset] may be
    negative; the result is the new absolute position.  As in PostgreSQL, a
    target outside [0, MAX_LARGE_OBJECT_SIZE] is an error. *)
Definition lo_lseek64 (s : state) (fd offset whence : Z) : option (Z * state) :=
  d ← descriptors s !! fd;
  sz ← object_size s fd;
  base ← (if whence =? 0 then Some 0
          else if whence =? 1 then Some (d_pos d)
          else if whence =? 2 then Some sz
          else None);
  let target := base + offset in
  if (0 <=? target) && (target <=? MAX_LARGE_OBJECT_SIZE) then
    Some (target,
          Build_state (objects s)
                      (<[fd := Build_descriptor (d_oid d) target]> (descriptors s)))
  else None.

(** [SELECT lo_tell64($1) as location] *)
Definition sql_tell (s : state) (fd : Z) : option (datum * state) :=
  location ← lo_tell64 s fd;
  Some (DObject [("location", DNum location)], s).

(** [SELECT lo_lseek64($1, $2, $3) as location] *)
Definition sql_seek (s : state) (fd position ref : Z) : option (datum * state) :=
  '(location, s') ← lo_lseek64 s fd position ref;
  Some (DObject [("location", DNum location)], s').

(** Modelled from the spec: the server procedure behind [read()], which is
    PostgreSQL's and not in the source.  It returns the bytes from the
    current position on, at most [len] of them (fewer at the end of the
    object, none after it; a negative [len] counts as 0), and moves the
    position past what was read. *)
Definition loread (s : state) (fd len : Z) : option (list Byte.byte * state) :=
  d ← descriptors s !! fd;
  content ← objects s !! d_oid d;
  let data := take (Z.to_nat len) (drop (Z.to_nat (d_pos d)) content) in
  Some (data,
        Build_state (objects s)
          (<[fd := Build_descriptor (d_oid d) (d_pos d + Z.of_nat (length data))]>
             (descriptors s))).

(** [SELECT loread($1, $2) as data] *)
Definition sql_read (s : state) (fd len : Z) : option (datum * state) :=
  '(data, s') ← loread s fd len;
  Some (DObject [("data", DBuffer data)], s').

(** What the statement of [LargeObject.size] does, innermost subquery first:
    [tell] reads the position, [seek] moves to the end and keeps the
    result as [size], the outer select moves back to [tell.location]. *)
Definition sql_size (s : state) (fd : Z) : option (datum * state) :=
  location ← lo_tell64 s fd;
  '(size, s1) ← lo_lseek64 s fd 0 2;
  '(back, s2) ← lo_lseek64 s1 fd location 0;
  Some (DObject [("lo_lseek64", DNum back); ("size", DNum size)], s2).

Definition rows (row : datum) : datum := DObject [("rows", DArray [row])].

(** A failed statement changes nothing and reaches the callback as an
    error without a result. *)
Definition answer (s : state) (r : option (datum * state)) : state * (datum * datum) :=
  match r with
  | Some (row, s') => (s', (DNull, rows row))
  | None => (s, (DError "error", DUndefined))
  end.

(** *** The statements, read as SQL

    The text of a statement is what the library sends; the server reads it.
    [parse] covers the SQL the library writes: [SELECT] with a list of
    targets (parameters [$n], integers, columns with or without their table,
    calls of a procedure, each with an optional [AS] name) and an optional
    subquery in [FROM].  Keywords and names are folded to lower case, as the
    server does for names without quotes. *)

Inductive token : Type :=
| TWord (w : string)
| TNum (n : Z)
| TParam (n : nat)
| TLParen
| TRParen
| TComma
| TDot
| TSemi.

Definition is_digit (c : Ascii.ascii) : bool :=
  let n := Ascii.nat_of_ascii c in (48 <=? n)%nat && (n <=? 57)%nat.

Definition is_word_char (c : Ascii.ascii) : bool :=
  let n := Ascii.nat_of_ascii c in
  is_digit c || ((65 <=? n)%nat && (n <=? 90)%nat)
  || ((97 <=? n)%nat && (n <=? 122)%nat) || (n =? 95)%nat || (n =? 36)%nat.

Definition lower (c : Ascii.ascii) : Ascii.ascii :=
  let n := Ascii.nat_of_ascii c in
  if (65 <=? n)%nat && (n <=? 90)%nat then Ascii.ascii_of_nat (n + 32) else c.

Definition digits_value (cs : list Ascii.ascii) : nat :=
  fold_left (fun acc c => (10 * acc + (Ascii.nat_of_ascii c - 48))%nat) cs 0%nat.

(** A run of word characters: [$n] is a parameter, digits are a number,
    anything else a keyword or a name. *)
Definition word_token (cs : list Ascii.ascii) : option token :=
  match cs with
  | [] => None
  | c :: rest =>
      if (Ascii.nat_of_ascii c =? 36)%nat then
        match rest with
        | [] => None
        | _ => if forallb is_digit rest then Some (TParam (digits_value rest)) else None
        end
      else if forallb is_digit cs then Some (TNum (Z.of_nat (digits_value cs)))
      else if is_digit c then None
      else Some (TWord (String.string_of_list_ascii (map lower cs)))
  end.

Definition flush (word : list Ascii.ascii) : option (list token) :=
  match word with
  | [] => Some []
  | _ => t ← word_token (rev word); Some [t]
  end.

Definition symbol_token (c : Ascii.ascii) : option (list token) :=
  let n := Ascii.nat_of_ascii c in
  if (n =? 32)%nat || (n =? 9)%nat || (n =? 10)%nat || (n =? 13)%nat then Some []
  else if (n =? 40)%nat then Some [TLParen]
  else if (n =? 41)%nat then Some [TRParen]
  else if (n =? 44)%nat then Some [TComma]
  else if (n =? 46)%nat then Some [TDot]
  else if (n =? 59)%nat then Some [TSemi]
  else None.

(** [word] holds the word being read, last character first. *)
Fixpoint lex (cs : list Ascii.ascii) (word : list Ascii.ascii) : option (list token) :=
  match cs with
  | [] => flush word
  | c :: rest =>
      if is_word_char c then lex rest (c :: word)
      else
        w ← flush word;
        t ← symbol_token c;
        ts ← lex rest [];
        Some (w ++ t ++ ts)
  end.

Inductive expr : Type :=
| EParam (n : nat)
| EInt (z : Z)
| EColumn (table : option string) (column : string)
| ECall (procedure : string) (args : list expr).

Inductive select : Type :=
| Select (targets : list (expr * option string)) (from : option (select * string)).

Definition is_keyword (w : string) : bool :=
  String.eqb w "select" || String.eqb w "from" || String.eqb w "as".

Fixpoint parse_expr (fuel : nat) (ts : list token) : option (expr * list token) :=
  match fuel with
  | O => None
  | S fuel' =>
      match ts with
      | TParam n :: rest => Some (EParam n, rest)
      | TNum z :: rest => Some (EInt z, rest)
      | TWord f :: TLParen :: TRParen :: rest =>
          if is_keyword f then None else Some (ECall f [], rest)
      | TWord f :: TLParen :: rest =>
          if is_keyword f then None
          else '(args, rest') ← parse_args fuel' rest; Some (ECall f args, rest')
      | TWord t :: TDot :: TWord c :: rest =>
          if is_keyword t || is_keyword c then None
          else Some (EColumn (Some t) c, rest)
      | TWord c :: rest =>
          if is_keyword c then None else Some (EColumn None c, rest)
      | _ => None
      end
  end
(** the arguments of a call, after its opening parenthesis *)
with parse_args (fuel : nat) (ts : list token) : option (list expr * list token) :=
  match fuel with
  | O => None
  | S fuel' =>
      '(e, rest) ← parse_expr fuel' ts;
      match rest with
      | TRParen :: rest' => Some ([e], rest')
      | TComma :: rest' =>
          '(es, rest'') ← parse_args fuel' rest'; Some (e :: es, rest'')
      | _ => None
      end
  end.

Definition parse_target (fuel : nat) (ts : list token)
    : option ((expr * option string) * list token) :=
  '(e, rest) ← parse_expr fuel ts;
  match rest with
  | TWord w :: TWord a :: rest' =>
      if String.eqb w "as" then
        if is_keyword a then None else Some ((e, Some a), rest')
      else Some ((e, None), rest)
  | _ => Some ((e, None), rest)
  end.

Fixpoint parse_targets (fuel : nat) (ts : list token)
    : option (list (expr * option string) * list token) :=
  match fuel with
  | O => None
  | S fuel' =>
      '(t, rest) ← parse_target fuel' ts;
      match rest with
      | TComma :: rest' =>
          '(more, rest'') ← parse_targets fuel' rest'; Some (t :: more, rest'')
      | _ => Some ([t], rest)
      end
  end.

Fixpoint parse_select (fuel : nat) (ts : list token) : option (select * list token) :=
  match fuel with
  | O => None
  | S fuel' =>
      match ts with
      | TWord w :: rest =>
          if String.eqb w "select" then
            '(targets, rest') ← parse_targets fuel' rest;
            match rest' with
            | TWord w' :: TLParen :: rest'' =>
                if String.eqb w' "from" then
                  '(sub, rest3) ← parse_select fuel' rest'';
                  match rest3 with
                  | TRParen :: TWord alias :: rest4 =>
                      if is_keyword alias then None
                      else Some (Select targets (Some (sub, alias)), rest4)
                  | _ => None
                  end
                else None
            | _ => Some (Select targets None, rest')
            end
          else None
      | _ => None
      end
  end.

Definition parse (text : string) : option select :=
  ts ← lex (String.list_ascii_of_string text) [];
  '(sel, rest) ← parse_select (S (length ts)) ts;
  match rest with
  | [] | [TSemi] => Some sel
  | _ => None
  end.

Arguments parse : simpl never.

(** *** Running a statement

    Subqueries run before the select around them, the targets of a select
    from left to right, the arguments of a call from left to right.  The
    procedures are the three above; any other procedure is an error. *)

Inductive sqlval : Type :=
| SInt (z : Z)
| SBytea (bytes : list Byte.byte).

Definition call_procedure (s : state) (procedure : string) (args : list sqlval)
    : option (sqlval * state) :=
  if String.eqb procedure "lo_tell64" then
    match args with
    | [SInt fd] => p ← lo_tell64 s fd; Some (SInt p, s)
    | _ => None
    end
  else if String.eqb procedure "lo_lseek64" then
    match args with
    | [SInt fd; SInt offset; SInt whence] =>
        '(p, s') ← lo_lseek64 s fd offset whence; Some (SInt p, s')
    | _ => None
    end
  else if String.eqb procedure "loread" then
    match args with
    | [SInt fd; SInt len] =>
        '(data, s') ← loread s fd len; Some (SBytea data, s')
    | _ => None
    end
  else None.

(** [row] is the row of the subquery in [FROM], named [alias]. *)
Fixpoint eval_expr (e : expr) (params : list sqlval) (alias : option string)
    (row : list (string * sqlval)) (s : state) : option (sqlval * state) :=
  match e with
  | EParam n =>
      match n with
      | O => None
      | S i => v ← params !! i; Some (v, s)
      end
  | EInt z => Some (SInt z, s)
  | EColumn table column =>
      if match table, alias with
         | None, _ => true
         | Some t, Some a => String.eqb t a
         | Some _, None => false
         end
      then v ← snd <$> List.find (fun c => String.eqb (fst c) column) row; Some (v, s)
      else None
  | ECall procedure args =>
      '(vs, s') ← (fix eval_args (es : list expr) (s : state)
                       : option (list sqlval * state) :=
                     match es with
                     | [] => Some ([], s)
                     | e :: es' =>
                         '(v, s1) ← eval_expr e params alias row s;
                         '(vs, s2) ← eval_args es' s1;
                         Some (v :: vs, s2)
                     end) args s;
      call_procedure s' procedure vs
  end.

(** The name of a column of the result: its [AS] name, or else the name of
    the procedure or of the column it comes from. *)
Definition target_name (t : expr * option string) : string :=
  match t with
  | (_, Some a) => a
  | (ECall procedure _, None) => procedure
  | (EColumn _ column, None) => column
  | (_, None) => "?column?"
  end.

Fixpoint eval_targets (ts : list (expr * option string)) (params : list sqlval)
    (alias : option string) (row : list (string * sqlval)) (s : state)
    : option (list (string * sqlval) * state) :=
  match ts with
  | [] => Some ([], s)
  | t :: ts' =>
      '(v, s1) ← eval_expr (fst t) params alias row s;
      '(out, s2) ← eval_targets ts' params alias row s1;
      Some ((target_name t, v) :: out, s2)
  end.

Fixpoint eval_select (sel : select) (params : list sqlval) (s : state)
    : option (list (string * sqlval) * state) :=
  match sel with
  | Select targets None => eval_targets targets params None [] s
  | Select targets (Some (sub, alias)) =>
      '(row, s1) ← eval_select sub params s;
      eval_targets targets params (Some alias) row s1
  end.

Definition param_of (v : value) : option sqlval :=
  match v with
  | VData (DNum n) => Some (SInt n)
  | VData (DBuffer bytes) => Some (SBytea bytes)
  | _ => None
  end.

Definition datum_of (v : sqlval) : datum :=
  match v with
  | SInt z => DNum z
  | SBytea bytes => DBuffer bytes
  end.

Definition run_statement (s : state) (q : query) : option (datum * state) :=
  stmt ← parse (text q);
  params ← mapM param_of (values q);
  '(row, s') ← eval_select stmt params s;
  Some (DObject (map (fun c => (fst c, datum_of (snd c))) row), s').

(** The server answering a statement of the library: it reads the text and
    runs it.  A statement that calls a procedure other than [loread],
    [lo_tell64] and [lo_lseek64] is answered with an error. *)
Definition respond (s : state) (q : query) : state * (datum * datum) :=
  answer s (run_statement s q).

End Pg.

(** * What the properties are stated with *)

(** ** The statements of the operations *)

Definition open_query (oid mode : value) : query :=
  Build_query "npg_lo_open" "SELECT lo_open($1, $2) AS fd" [oid; mode].

Definition unlink_query (oid : value) : query :=
  Build_query "npg_lo_unlink" "SELECT lo_unlink($1) as ok" [oid].

Definition create_query : query :=
  Build_query "npg_lo_creat" "SELECT lo_creat($1) AS oid" [VData (DNum 0x60000)].

Definition IllegalArgument : value := VData (DError "Illegal Argument").

Definition read_query (fd : value) (length : Z) : query :=
  Build_query "npg_loread" "SELECT loread($1, $2) as data" [fd; VData (DNum length)].

Definition write_query (fd chunk : value) : query :=
  Build_query "npg_lowrite" "SELECT lowrite($1, $2)" [fd; chunk].

Definition tell_query (fd : value) : query :=
  Build_query "npg_lo_tell64" "SELECT lo_tell64($1) as location" [fd].

Definition size_query (fd : value) : query :=
  Build_query "npg_size" LargeObject.size_text [fd].

Definition close_query (fd : value) : query :=
  Build_query "npg_lo_close" "SELECT lo_close($1) as ok" [fd].

(** ** Observations *)

(** What a query callback of the library may do with the answer: hand it to
    the callback the caller gave, fail while reading the result, or nothing
    when no callback was given.  In particular it never calls the adapter
    again on its own. *)
Inductive hands_over (cb : option Callback) : act -> Prop :=
| hands_over_call f err a1 a2 : cb = Some f -> hands_over cb (f err a1 a2)
| hands_over_throw e : hands_over cb (Throw e)
| hands_over_nothing : cb = None -> hands_over cb Ret.

Definition answer_with (h : option (datum -> datum -> act)) (err result : datum) : act :=
  match h with
  | Some f => f err result
  | None => Ret
  end.

(** Running [a] returns normally, adds the one statement [q] to what the
    adapter has been given, and the callback registered with it only hands
    over to [cb]. *)
Definition one_adapter_call {DB : Type} (a : act) (q : query)
    (cb : option Callback) : Prop :=
  forall w : world DB,
    exists h,
      exec a w = (enqueue q h w, Normal tt) /\
      queries_of (fst (exec a w)) = queries_of w ++ [q] /\
      forall err result, hands_over cb (answer_with h err result).

(** The database answers [q] in state [s] with a success whose first row
    has [v] in column [col], and goes to state [s']. *)
Definition succeeds {DB : Type} (respond : DB -> query -> DB * (datum * datum))
    (s : DB) (q : query) (col : string) (s' : DB) (v : value) : Prop :=
  exists err result,
    respond s q = (s', (err, result)) /\
    truthy err = false /\
    first_row_col result col = Normal v.

(** What the library has wired to the stream [s]:
    - nothing listens for ['error'] or for any event but [event], so a
      stream error closes nothing;
    - when the host emits [event], [close] is called on the large object of
      the stream, once;
    - whatever the answer to that [close], the only thing that can follow
      is the warning on the console, printed exactly when the answer is an
      error: nothing is thrown, no promise changes and no callback runs. *)
Definition closes_quietly_on {DB : Type} (event : string) (s : stream_obj) : Prop :=
  let q := close_query (_fd (_largeObject s)) in
  dispatch "error" (listeners s) = Ret /\
  (forall other, other <> event -> dispatch other (listeners s) = Ret) /\
  forall (respond : DB -> query -> DB * (datum * datum)) (w : world DB)
         (s' : DB) (err result : datum),
    pending w = [] ->
    respond (server w) q = (s', (err, result)) ->
    let w1 := run_callback (dispatch event (listeners s)) w in
    queries_of w1 = queries_of w ++ [q] /\
    tick respond w1
    = Some (Build_world s' [] (promises w)
              (trace w ++ [EQuery q]
                 ++ (if truthy err
                     then [EConsoleError LargeObjectManager.close_warning err]
                     else []))).

(** The producer side of the stream framework, as far as [_write] sees it:
    the chunks are handed over one at a time, the next one from the
    completion callback of the one before; an error ends the stream. *)
Fixpoint feed (this : stream_obj) (chunks : list value) : act :=
  match chunks with
  | [] => Ret
  | chunk :: rest =>
      WriteStream._write this chunk undefined
        (fun err _ _ => if truthy err then Emit "error" err Ret else feed this rest)
  end.

(** The consumer side of the stream framework, as far as [_read] sees it: it
    pulls [length] bytes, and pulls again once the answer has been pushed,
    until the stream has pushed its end mark or has failed. *)
Definition is_end (e : event) : bool :=
  match e with
  | EPush (VData DNull) => true
  | EEmit name _ => String.eqb name "error"
  | EUncaught _ => true
  | _ => false
  end.

Definition at_end {DB : Type} (w : world DB) : bool := existsb is_end (trace w).

Fixpoint pump {DB : Type} (respond : DB -> query -> DB * (datum * datum))
    (this : stream_obj) (length : Z) (fuel : nat) (w : world DB) : world DB :=
  match fuel with
  | O => w
  | S fuel' =>
      if at_end w then w
      else match tick respond (run_callback (ReadStream._read this length) w) with
           | Some w' => pump respond this length fuel' w'
           | None => w
           end
  end.

(** The bytes pushed downstream so far, in order. *)
Definition pushed_bytes {DB : Type} (w : world DB) : list Byte.byte :=
  concat (omap (fun e => match e with
                         | EPush (VData (DBuffer b)) => Some b
                         | _ => None
                         end) (trace w)).

(** [obj.tell], then [obj.size], then [obj.tell] again, each called from the
    callback of the one before; [k] receives the three errors and results. *)
Definition tell_size_tell (obj : LargeObject) (k : value -> act) : act :=
  LargeObject.tell obj (fun e1 before _ =>
    LargeObject.size obj (fun e2 size _ =>
      LargeObject.tell obj (fun e3 after _ =>
        k (VArray [e1; before; e2; size; e3; after])))).

(** [obj.read(length)] and then [obj.tell()], the second called from the
    callback of the first; [k] receives both errors and results. *)
Definition read_then_tell (obj : LargeObject) (length : value) (k : value -> act) : act :=
  LargeObject.read obj length (fun e1 data _ =>
    LargeObject.tell obj (fun e2 position _ =>
      k (VArray [e1; data; e2; position]))).

(** [obj.seek(position, ref)] and then [obj.tell()]. *)
Definition seek_then_tell (obj : LargeObject) (position ref : value)
    (k : value -> act) : act :=
  LargeObject.seek obj position ref (Some (fun e1 location _ =>
    LargeObject.tell obj (fun e2 position' _ =>
      k (VArray [e1; location; e2; position'])))).

(** The server state is as the server keeps it: a descriptor points at an
    existing object, and position and size are within the server's limit. *)
Definition open_at (s : Pg.state) (fd : Z) (d : Pg.descriptor)
    (content : list Byte.byte) : Prop :=
  Pg.descriptors s !! fd = Some d /\
  Pg.objects s !! Pg.d_oid d = Some content /\
  0 <= Pg.d_pos d <= Pg.MAX_LARGE_OBJECT_SIZE /\
  Z.of_nat (length content) <= Pg.MAX_LARGE_OBJECT_SIZE.

(** The world once the driver has answered the only unanswered statement
    [q] and the database has gone to state [s'], before the callback of [q]
    runs. *)
Definition answered {DB : Type} (w : world DB) (s' : DB) (q : query) : world DB :=
  Build_world s' [] (promises w) (trace w ++ [EQuery q]).

(** The caller runs [a]; then the driver answers the oldest statement. *)
Definition perform {DB : Type} (respond : DB -> query -> DB * (datum * datum))
    (a : act) (w : world DB) : option (world DB) :=
  tick respond (run_callback a w).

(** The same for a call that returns a promise: the world after the answer,
    and the promise. *)
Definition perform_async {DB : Type} (respond : DB -> query -> DB * (datum * datum))
    (call : world DB -> world DB * completion nat) (w : world DB)
    : option (world DB) * completion nat :=
  (tick respond (fst (call w)), snd (call w)).

(** [perform] and [perform_async] with the pg-promise adapter. *)
Definition perform_pgPromise {DB : Type}
    (respond : DB -> query -> DB * (datum * datum))
    (a : act) (w : world DB) : option (world DB) :=
  tick_pgPromise respond (run_callback a w).

Definition perform_async_pgPromise {DB : Type}
    (respond : DB -> query -> DB * (datum * datum))
    (call : world DB -> world DB * completion nat) (w : world DB)
    : option (world DB) * completion nat :=
  (tick_pgPromise respond (fst (call w)), snd (call w)).

(** The world with one more promise, in state [st]. *)
Definition with_promise {DB : Type} (st : promise_state) (w : world DB) : world DB :=
  Build_world (server w) (pending w) (promises w ++ [st]) (trace w).

(** The callback [promiseFromCallback] hands to [fn], for the promise [p]. *)
Definition promise_callback (p : nat) (twoArgs : value) : Callback :=
  fun error arg1 arg2 =>
    if truthy error then Reject p error Ret
    else if truthy twoArgs then Resolve p (VArray [arg1; arg2]) Ret
    else Resolve p arg1 Ret.

(** How a promise ends up when that callback is called with [error],
    [arg1], [arg2]. *)
Definition settled_by (twoArgs error arg1 arg2 : value) : promise_state :=
  if truthy error then Rejected error
  else if truthy twoArgs then Fulfilled (VArray [arg1; arg2])
  else Fulfilled arg1.

(** A result of the driver without rows. *)
Definition no_rows : datum := DObject [("rows", DArray [])].

(** ** Sample inputs

    Concrete databases, handles and callbacks, taken from the tests of the
    repository where they have them. *)
Module Sample.

(** A database that answers every statement with the same success. *)
Definition always (row : datum) : unit -> query -> unit * (datum * datum) :=
  fun s _ => (s, (DNull, Pg.rows row)).

(** A database on which [lo_close] fails and everything else answers [row]. *)
Definition close_fails (row : datum) : unit -> query -> unit * (datum * datum) :=
  fun s q =>
    if String.eqb (name q) "npg_lo_close" then (s, (DError "lo_close failed", DUndefined))
    else (s, (DNull, Pg.rows row)).

Definition idle : world unit := Build_world tt [] [] [].

Definition handle : LargeObject := Build_LargeObject (DNum 16385) (DNum 0).

(** A callback that shows what it was called with. *)
Definition report : Callback :=
  fun err a1 a2 => ConsoleError "callback" (VArray [err; a1; a2]) Ret.

Definition bytes : list Byte.byte := [Byte.x01; Byte.x23; Byte.x45].

(** [new Buffer('0123456789ABCDEF', 'hex')] of the tests *)
Definition testBuf : list Byte.byte :=
  [Byte.x01; Byte.x23; Byte.x45; Byte.x67; Byte.x89; Byte.xab; Byte.xcd; Byte.xef].

(** The large object the tests create, open on descriptor 0 at [pos]. *)
Definition pg (pos : Z) : Pg.state :=
  Pg.Build_state {[ 16385 := testBuf ]} {[ 0 := Pg.Build_descriptor 16385 pos ]}.

Definition pg_idle (pos : Z) : world Pg.state := Build_world (pg pos) [] [] [].

End Sample.

(** More inputs for the closed instances. *)
Module Witness.
Import Sample.

Definition stream : stream_obj := new_ReadStream handle undefined.

(** The same stream with somebody listening for ['error']. *)
Definition listening : stream_obj :=
  on stream "error" (ConsoleError "stream error" undefined Ret).

Definition row : datum :=
  DObject [("fd", DNum 0); ("size", DNum 3); ("oid", DNum 16385);
           ("data", DBuffer bytes)].

End Witness.

(** A consumer for which the stream it is handed ends at once: it shows what
    it received and the host emits ['end']. *)
Definition read_to_end : Callback :=
  fun err size stream =>
    seq (Sample.report err size (VData (DStr "stream")))
        (match stream with
         | VReadStream s => dispatch "end" (listeners s)
         | _ => Ret
         end).

(** Databases for the failure cases. *)
Module Cases.

Definition boom : datum := DError "boom".

(** Every statement fails. *)
Definition failing : unit -> query -> unit * (datum * datum) :=
  fun s _ => (s, (boom, DUndefined)).

(** Every statement succeeds without rows. *)
Definition empty : unit -> query -> unit * (datum * datum) :=
  fun s _ => (s, (DNull, no_rows)).

(** The statement named [failed] fails, the others answer [row]. *)
Definition failing_at (failed : string) (row : datum)
    : unit -> query -> unit * (datum * datum) :=
  fun s q =>
    if String.eqb (name q) failed then (s, (boom, DUndefined))
    else (s, (DNull, Pg.rows row)).

(** A callback that throws what it is given as result, and shows an error. *)
Definition touchy : value -> value -> act :=
  fun err result =>
    if truthy err then ConsoleError "failed" err Ret else Throw result.

End Cases.

Definition myThisObject : value := VData (DStr "myThisObject").

(** The calls of [testRead] (test/pg.js) between [open] and [close], in
    callback style: read 2 bytes, tell, size, tell, read 100, seek to two
    bytes before the end, read 100. *)
Definition testRead (obj : LargeObject) (k : value -> act) : act :=
  LargeObject.read obj (VData (DNum 2)) (fun _ buf1 _ =>
  LargeObject.tell obj (fun _ position1 _ =>
  LargeObject.size obj (fun _ size _ =>
  LargeObject.tell obj (fun _ position2 _ =>
  LargeObject.read obj (VData (DNum 100)) (fun _ buf2 _ =>
  LargeObject.seek obj (VData (DNum (-2))) (VData (DNum LargeObject.SEEK_END))
    (Some (fun _ _ _ =>
  LargeObject.read obj (VData (DNum 100)) (fun _ buf3 _ =>
  k (VArray [buf1; position1; size; position2; buf2; buf3]))))))))).

(** * Properties *)

(** ** The runtime *)

Section RuntimeFacts.
Context {DB : Type}.
Implicit Types (w : world DB) (q : query).

Lemma queries_of_enqueue w q cb :
  queries_of (enqueue q cb w) = queries_of w ++ [q].
Proof. unfold queries_of, enqueue; simpl. by rewrite omap_app. Qed.

Lemma log_build (e : event) (s : DB) p pr t :
  log e (Build_world s p pr t) = Build_world s p pr (t ++ [e]).
Proof. reflexivity. Qed.

(** The driver answering the only unanswered statement. *)
Lemma tick_enqueue respond w q f s' err result :
  pending w = [] ->
  respond (server w) q = (s', (err, result)) ->
  tick respond (enqueue q (Some f) w)
  = Some (run_callback (f err result)
            (Build_world s' [] (promises w) (trace w ++ [EQuery q]))).
Proof.
  intros Hp Hr. unfold tick, enqueue; simpl. rewrite Hp; simpl.
  by rewrite Hr.
Qed.

Lemma run_callback_query w q h :
  run_callback (Query q h Ret) w = enqueue q h w.
Proof. reflexivity. Qed.

End RuntimeFacts.

(** ** ObjectManager: argument checks, creation *)

Section Manager.
Context {DB : Type}.
Implicit Types (w : world DB).

(** C3. [open] and [unlink] with a falsy [oid] throw at once and leave the
    world as it was: no statement reaches the adapter.  With a truthy
    [oid] they return normally, and the adapter has been called once, with
    the statement of the operation. *)
Theorem open_unlink_fail_fast w (oid mode : value) (callback : Callback)
    (ucallback : option Callback) :
  let o := exec (LargeObjectManager.open oid mode callback) w in
  let u := exec (LargeObjectManager.unlink oid ucallback) w in
  if truthy oid then
    (snd o = Normal tt /\
     queries_of (fst o) = queries_of w ++ [open_query oid mode] /\
     length (pending (fst o)) = S (length (pending w))) /\
    (snd u = Normal tt /\
     queries_of (fst u) = queries_of w ++ [unlink_query oid] /\
     length (pending (fst u)) = S (length (pending w)))
  else
    o = (w, Thrown IllegalArgument) /\ u = (w, Thrown IllegalArgument).
Proof.
  unfold LargeObjectManager.open, LargeObjectManager.unlink.
  destruct (truthy oid); simpl; [| done].
  rewrite !queries_of_enqueue, !length_app; simpl.
  repeat split; lia.
Qed.

(** C8. [create] calls the adapter with [lo_creat] and the mode
    [READWRITE = 0x00020000 | 0x00040000], whatever the caller does later;
    when the answer is a success whose first row has the column [oid], the
    callback gets [(null, oid)] and nothing else happens: no descriptor is
    opened, no handle is built. *)
Theorem create_readwrite_oid_only respond w (callback : Callback)
    (s' : DB) (err result : datum) (new_oid : value) :
  pending w = [] ->
  respond (server w) create_query = (s', (err, result)) ->
  truthy err = false ->
  first_row_col result "oid" = Normal new_oid ->
  LargeObjectManager.READWRITE
    = Z.lor LargeObjectManager.WRITE LargeObjectManager.READ /\
  values create_query = [VData (DNum LargeObjectManager.READWRITE)] /\
  (exists h, exec (LargeObjectManager.create callback) w
             = (enqueue create_query h w, Normal tt)) /\
  tick respond (fst (exec (LargeObjectManager.create callback) w))
  = Some (run_callback (callback null new_oid undefined)
            (Build_world s' [] (promises w) (trace w ++ [EQuery create_query]))).
Proof.
  intros Hp Hr He Ho. split; [reflexivity |]. split; [reflexivity |].
  split; [eexists; reflexivity |].
  unfold LargeObjectManager.create; cbn [exec fst].
  change (Build_query "npg_lo_creat" "SELECT lo_creat($1) AS oid"
            [VData (DNum LargeObjectManager.READWRITE)]) with create_query.
  erewrite tick_enqueue by eassumption.
  cbv beta. by rewrite He, Ho.
Qed.

End Manager.

(** ** One adapter call per operation *)

Section OneCall.
Context {DB : Type}.

Local Ltac one_call :=
  intros w; eexists; split; [reflexivity |];
  split; [cbn [exec fst]; apply queries_of_enqueue |];
  intros err result; cbn [answer_with].

Local Ltac hand_over :=
  first [ by eapply hands_over_call
        | by apply hands_over_throw
        | by apply hands_over_nothing ].

Lemma err_only_hands_over (cb : option Callback) err result :
  hands_over cb (answer_with (LargeObject.err_only cb) err result).
Proof. destruct cb; cbn; hand_over. Qed.

Lemma first_col_hands_over col (callback : Callback) err result :
  hands_over (Some callback) (LargeObject.first_col col callback err result).
Proof.
  unfold LargeObject.first_col.
  destruct (truthy err); [hand_over |].
  destruct (first_row_col result col); hand_over.
Qed.

Lemma close_one_call this cb :
  one_adapter_call (DB := DB) (LargeObject.close this cb)
    (Build_query "npg_lo_close" "SELECT lo_close($1) as ok" [_fd this]) cb.
Proof. one_call. apply err_only_hands_over. Qed.

Lemma read_one_call this len callback :
  one_adapter_call (DB := DB) (LargeObject.read this len callback)
    (Build_query "npg_loread" "SELECT loread($1, $2) as data" [_fd this; len])
    (Some callback).
Proof. one_call. apply first_col_hands_over. Qed.

Lemma write_one_call this buffer cb :
  one_adapter_call (DB := DB) (LargeObject.write this buffer cb)
    (Build_query "npg_lowrite" "SELECT lowrite($1, $2)" [_fd this; buffer]) cb.
Proof. one_call. apply err_only_hands_over. Qed.

Lemma seek_one_call this position ref cb :
  one_adapter_call (DB := DB) (LargeObject.seek this position ref cb)
    (Build_query "npg_lo_lseek64" "SELECT lo_lseek64($1, $2, $3) as location"
                 [_fd this; position; ref]) cb.
Proof.
  destruct cb; one_call; [apply first_col_hands_over | hand_over].
Qed.

Lemma tell_one_call this callback :
  one_adapter_call (DB := DB) (LargeObject.tell this callback)
    (Build_query "npg_lo_tell64" "SELECT lo_tell64($1) as location" [_fd this])
    (Some callback).
Proof. one_call. apply first_col_hands_over. Qed.

Lemma size_one_call this callback :
  one_adapter_call (DB := DB) (LargeObject.size this callback)
    (Build_query "npg_size" LargeObject.size_text [_fd this]) (Some callback).
Proof. one_call. apply first_col_hands_over. Qed.

Lemma truncate_one_call this len cb :
  one_adapter_call (DB := DB) (LargeObject.truncate this len cb)
    (Build_query "npg_lo_truncate64" "SELECT lo_truncate64($1, $2)"
                 [_fd this; len]) cb.
Proof. one_call. apply err_only_hands_over. Qed.

Lemma create_one_call callback :
  one_adapter_call (DB := DB) (LargeObjectManager.create callback)
    create_query (Some callback).
Proof.
  one_call. destruct (truthy err); [hand_over |].
  destruct (first_row_col result "oid"); hand_over.
Qed.

Lemma open_one_call oid mode callback :
  truthy oid = true ->
  one_adapter_call (DB := DB) (LargeObjectManager.open oid mode callback)
    (open_query oid mode) (Some callback).
Proof.
  intros Hoid. unfold LargeObjectManager.open. rewrite Hoid. cbn [negb].
  one_call. destruct (truthy err); [hand_over |].
  destruct (first_row_col result "fd"); hand_over.
Qed.

Lemma unlink_one_call oid cb :
  truthy oid = true ->
  one_adapter_call (DB := DB) (LargeObjectManager.unlink oid cb)
    (unlink_query oid) cb.
Proof.
  intros Hoid. unfold LargeObjectManager.unlink. rewrite Hoid. cbn [negb].
  destruct cb; one_call; hand_over.
Qed.

End OneCall.

Section EveryOperation.
Context {DB : Type}.

(** C6. Each of open, create, unlink, read, write, seek, tell, size,
    truncate and close, called with valid arguments, calls the query
    adapter exactly once: its run adds one statement, and its query
    callback only hands the answer over to the caller's callback. *)
Theorem every_operation_one_query (this : LargeObject)
    (oid mode length buffer position ref : value)
    (callback : Callback) (cb : option Callback) :
  truthy oid = true ->
  one_adapter_call (DB := DB) (LargeObjectManager.open oid mode callback)
    (open_query oid mode) (Some callback) /\
  one_adapter_call (DB := DB) (LargeObjectManager.create callback)
    create_query (Some callback) /\
  one_adapter_call (DB := DB) (LargeObjectManager.unlink oid cb)
    (unlink_query oid) cb /\
  one_adapter_call (DB := DB) (LargeObject.read this length callback)
    (Build_query "npg_loread" "SELECT loread($1, $2) as data" [_fd this; length])
    (Some callback) /\
  one_adapter_call (DB := DB) (LargeObject.write this buffer cb)
    (Build_query "npg_lowrite" "SELECT lowrite($1, $2)" [_fd this; buffer]) cb /\
  one_adapter_call (DB := DB) (LargeObject.seek this position ref cb)
    (Build_query "npg_lo_lseek64" "SELECT lo_lseek64($1, $2, $3) as location"
                 [_fd this; position; ref]) cb /\
  one_adapter_call (DB := DB) (LargeObject.tell this callback)
    (Build_query "npg_lo_tell64" "SELECT lo_tell64($1) as location" [_fd this])
    (Some callback) /\
  one_adapter_call (DB := DB) (LargeObject.size this callback)
    (Build_query "npg_size" LargeObject.size_text [_fd this]) (Some callback) /\
  one_adapter_call (DB := DB) (LargeObject.truncate this length cb)
    (Build_query "npg_lo_truncate64" "SELECT lo_truncate64($1, $2)"
                 [_fd this; length]) cb /\
  one_adapter_call (DB := DB) (LargeObject.close this cb)
    (Build_query "npg_lo_close" "SELECT lo_close($1) as ok" [_fd this]) cb.
Proof.
  intros Hoid.
  repeat split;
    auto using open_one_call, create_one_call, unlink_one_call, read_one_call,
      write_one_call, seek_one_call, tell_one_call, size_one_call,
      truncate_one_call, close_one_call.
Qed.

End EveryOperation.

Lemma every_operation_one_query_witness :
  truthy (VData (DNum 16385)) = true /\
  one_adapter_call (DB := unit)
    (LargeObject.size Sample.handle Sample.report)
    (Build_query "npg_size" LargeObject.size_text [VData (DNum 0)])
    (Some Sample.report).
Proof.
  split; [reflexivity |].
  apply (every_operation_one_query (DB := unit) Sample.handle
           (VData (DNum 16385)) (VData (DNum LargeObjectManager.READ))
           (VData (DNum 2)) (VData (DBuffer Sample.bytes)) (VData (DNum 0))
           (VData (DNum LargeObject.SEEK_SET)) Sample.report (Some Sample.report)).
  reflexivity.
Defined.

(** ** Stream adapters *)

Section Streams.
Context {DB : Type}.
Implicit Types (w : world DB) (this : stream_obj).

(** C7. A pull for zero or fewer bytes throws ["Illegal Argument"] at once;
    the world is as before, so no read was issued and nothing was pushed. *)
Theorem read_nonpositive_throws w this (length : Z) :
  length <= 0 ->
  exec (ReadStream._read this length) w
  = (w, Thrown (VData (DStr "Illegal Argument"))).
Proof.
  intros Hle. unfold ReadStream._read.
  by rewrite (proj2 (Z.leb_le length 0) Hle).
Qed.

(** C10. Both stream constructors use [bufferSize || 16384] as the
    [highWaterMark]: a falsy size (0, [undefined], [null], NaN, the empty
    string, [false]) gives 16384, a truthy one is used as given. *)
Theorem bufferSize_default (obj : LargeObject) (bufferSize : value) :
  let r := highWaterMark (LargeObject.getReadableStream obj bufferSize) in
  let x := highWaterMark (LargeObject.getWritableStream obj bufferSize) in
  (if truthy bufferSize then r = bufferSize /\ x = bufferSize
   else r = VData (DNum 16384) /\ x = VData (DNum 16384)) /\
  highWaterMark (LargeObject.getReadableStream obj (VData (DNum 0)))
    = VData (DNum 16384) /\
  highWaterMark (LargeObject.getWritableStream obj undefined)
    = VData (DNum 16384).
Proof.
  cbn. unfold highWaterMark, js_or; cbn.
  by destruct (truthy bufferSize).
Qed.

(** The answer to a pull: the bytes are pushed, and the end mark after them
    when they are fewer than asked for. *)
Lemma read_answered respond w this (length : Z)
    (s' : DB) (err result : datum) (data : list Byte.byte) :
  0 < length ->
  pending w = [] ->
  respond (server w) (read_query (_fd (_largeObject this)) length)
    = (s', (err, result)) ->
  truthy err = false ->
  first_row_col result "data" = Normal (VData (DBuffer data)) ->
  run_callback (ReadStream._read this length) w
    = enqueue (read_query (_fd (_largeObject this)) length)
        (Some (LargeObject.first_col "data" (fun error data _ =>
           if truthy error then emit this "error" error
           else Push data
                  (match get_prop data "length" with
                   | Thrown e => Throw e
                   | Normal len => if js_lt len length then Push null Ret else Ret
                   end)))) w /\
  tick respond (run_callback (ReadStream._read this length) w)
  = Some (Build_world s' [] (promises w)
            (trace w ++ [EQuery (read_query (_fd (_largeObject this)) length);
                         EPush (VData (DBuffer data))]
               ++ (if Z.of_nat (List.length data) <? length
                   then [EPush null] else []))).
Proof.
  intros Hpos Hp Hr He Hd.
  unfold ReadStream._read.
  rewrite (proj2 (Z.leb_gt length 0) Hpos).
  unfold LargeObject.read. fold (read_query (_fd (_largeObject this)) length).
  rewrite run_callback_query. split; [reflexivity |].
  erewrite tick_enqueue by eassumption.
  unfold LargeObject.first_col. rewrite He, Hd.
  unfold run_callback. cbn.
  destruct (Z.of_nat (List.length data) <? length);
    cbn; rewrite ?log_build, <- ?app_assoc; reflexivity.
Qed.

(** C1. A pull for [length > 0] bytes calls the adapter once, with
    [loread(fd, length)].  When the answer is a success carrying the bytes
    [data], the stream pushes [data], and pushes the end-of-stream mark
    right after exactly when [data] is shorter than [length], empty or not.
    Nothing else happens: nothing is left unanswered, so no second read was
    issued. *)
Theorem read_pull_once respond w this (length : Z)
    (s' : DB) (err result : datum) (data : list Byte.byte) :
  0 < length ->
  pending w = [] ->
  respond (server w) (read_query (_fd (_largeObject this)) length)
    = (s', (err, result)) ->
  truthy err = false ->
  first_row_col result "data" = Normal (VData (DBuffer data)) ->
  let q := read_query (_fd (_largeObject this)) length in
  let w1 := fst (exec (ReadStream._read this length) w) in
  (exists h, exec (ReadStream._read this length) w = (enqueue q h w, Normal tt)) /\
  queries_of w1 = queries_of w ++ [q] /\
  tick respond w1
  = Some (Build_world s' [] (promises w)
            (trace w ++ [EQuery q; EPush (VData (DBuffer data))]
               ++ (if Z.of_nat (List.length data) <? length
                   then [EPush null] else []))).
Proof.
  intros Hpos Hp Hr He Hd q w1.
  destruct (read_answered respond w this length s' err result data
              Hpos Hp Hr He Hd) as [Hrun Htick].
  assert (Hexec : exec (ReadStream._read this length) w
                  = (run_callback (ReadStream._read this length) w, Normal tt)).
  { unfold run_callback, ReadStream._read.
    by rewrite (proj2 (Z.leb_gt length 0) Hpos). }
  subst w1. rewrite Hexec. cbn [fst].
  split; [rewrite Hrun; by eexists |].
  split; [rewrite Hrun; apply queries_of_enqueue | exact Htick].
Qed.

(** C5. A chunk that is not a buffer makes [_write] throw
    ["Illegal Argument"] with nothing sent.  A buffer is sent as it is in
    one [lowrite(fd, chunk)] call; the completion callback of the stream
    framework does not run during [_write], and runs, with the error of
    the answer, when the answer to that call arrives; until then the
    framework holds back the next chunk. *)
Theorem write_forwards_chunk respond w this (chunk encoding : value)
    (callback : Callback) (s' : DB) (err result : datum) :
  pending w = [] ->
  respond (server w) (write_query (_fd (_largeObject this)) chunk)
    = (s', (err, result)) ->
  let q := write_query (_fd (_largeObject this)) chunk in
  let r := exec (WriteStream._write this chunk encoding callback) w in
  if isBuffer chunk then
    (exists h, r = (enqueue q (Some h) w, Normal tt)) /\
    queries_of (fst r) = queries_of w ++ [q] /\
    tick respond (fst r)
    = Some (run_callback (callback err undefined undefined)
              (Build_world s' [] (promises w) (trace w ++ [EQuery q])))
  else r = (w, Thrown (VData (DStr "Illegal Argument"))).
Proof.
  intros Hp Hr q r. subst q r. unfold WriteStream._write.
  destruct (isBuffer chunk); cbn [negb]; [| reflexivity].
  unfold LargeObject.write, write_query in *.
  cbn [exec fst snd LargeObject.err_only].
  split; [by eexists |]. split; [apply queries_of_enqueue |].
  by erewrite tick_enqueue by eassumption.
Qed.

(** X26. Chunks fed one after the other reach the database as one [lowrite]
    each, in the order they were fed, as long as the database reports no
    error. *)
Lemma feed_in_order respond this (chunks : list value) w :
  pending w = [] ->
  forallb isBuffer chunks = true ->
  (forall s q, truthy (VData (fst (snd (respond s q)))) = false) ->
  let w' := ticks respond (List.length chunks) (run_callback (feed this chunks) w) in
  queries_of w' = queries_of w ++ map (write_query (_fd (_largeObject this))) chunks /\
  pending w' = [].
Proof.
  intros Hp Hbuf Hok. revert w Hp.
  induction chunks as [| chunk rest IH]; intros w Hp w'; subst w'.
  - cbn. by rewrite app_nil_r.
  - cbn [forallb] in Hbuf. apply andb_prop in Hbuf as [Hchunk Hrest].
    cbn [feed List.length ticks map]. unfold WriteStream._write.
    rewrite Hchunk. cbn [negb]. unfold LargeObject.write.
    cbn [LargeObject.err_only]. fold (write_query (_fd (_largeObject this)) chunk).
    rewrite run_callback_query.
    destruct (respond (server w) (write_query (_fd (_largeObject this)) chunk))
      as [s' [err result]] eqn:Hr.
    erewrite tick_enqueue by eassumption.
    cbv beta.
    pose proof (Hok (server w) (write_query (_fd (_largeObject this)) chunk)) as He.
    rewrite Hr in He. cbn [fst snd] in He. rewrite He.
    destruct (IH Hrest
                (Build_world s' [] (promises w)
                   (trace w ++ [EQuery (write_query (_fd (_largeObject this)) chunk)]))
                eq_refl) as [Hq Hpend].
    split; [| exact Hpend].
    rewrite Hq. unfold queries_of at 1. cbn [trace].
    rewrite omap_app. cbn. by rewrite <- app_assoc.
Qed.

End Streams.

(** ** Promise variants *)

Section Promises.
Context {DB : Type}.
Implicit Types (w : world DB).

Lemma settle_fresh w (st : promise_state) :
  settle (length (promises w)) st
    (Build_world (server w) (pending w) (promises w ++ [Pending]) (trace w))
  = Build_world (server w) (pending w) (promises w ++ [st]) (trace w).
Proof.
  unfold settle; cbn [promises server pending trace].
  rewrite list_lookup_middle by reflexivity.
  f_equal. rewrite insert_app_r_alt by reflexivity.
  by rewrite Nat.sub_diag.
Qed.

(** An executor that throws before calling back rejects the promise. *)
Lemma promiseFromCallback_throw {Self : Type} (fn : Self -> Callback -> act)
    (self : Self) (opts e : value) w :
  (forall callback, fn self callback = Throw e) ->
  promiseFromCallback fn self opts w
  = (Build_world (server w) (pending w) (promises w ++ [Rejected e]) (trace w),
     Normal (length (promises w))).
Proof.
  intros Hfn. unfold promiseFromCallback, new_Promise.
  rewrite Hfn. cbn [exec]. by rewrite settle_fresh.
Qed.

(** C9. [openAsync] and [unlinkAsync] with a falsy [oid] return normally:
    the caller gets a promise, already rejected with the
    ["Illegal Argument"] error that [open] and [unlink] throw inside the
    promise executor, and no statement has reached the adapter. *)
Theorem async_falsy_oid_rejects w (oid mode : value) :
  truthy oid = false ->
  let rejected :=
    (Build_world (server w) (pending w)
       (promises w ++ [Rejected IllegalArgument]) (trace w),
     Normal (length (promises w))) in
  LargeObjectManager.openAsync oid mode w = rejected /\
  LargeObjectManager.unlinkAsync oid w = rejected /\
  (forall callback,
     exec (LargeObjectManager.open oid mode callback) w
     = (w, Thrown IllegalArgument)).
Proof.
  intros Hoid rejected. subst rejected.
  unfold LargeObjectManager.openAsync, LargeObjectManager.unlinkAsync.
  repeat split.
  - apply promiseFromCallback_throw. intros callback.
    unfold LargeObjectManager.open. by rewrite Hoid.
  - apply promiseFromCallback_throw. intros callback.
    unfold LargeObjectManager.unlink. by rewrite Hoid.
  - intros callback. unfold LargeObjectManager.open. by rewrite Hoid.
Qed.

End Promises.

(** ** The statements of the library, as the server reads them *)

Section Statements.
Import Pg.
Implicit Types (s : Pg.state).

Lemma parse_read :
  parse "SELECT loread($1, $2) as data"
  = Some (Select [(ECall "loread" [EParam 1; EParam 2], Some "data")] None).
Proof. vm_compute. reflexivity. Qed.

Lemma parse_tell :
  parse "SELECT lo_tell64($1) as location"
  = Some (Select [(ECall "lo_tell64" [EParam 1], Some "location")] None).
Proof. vm_compute. reflexivity. Qed.

Lemma parse_seek :
  parse "SELECT lo_lseek64($1, $2, $3) as location"
  = Some (Select [(ECall "lo_lseek64" [EParam 1; EParam 2; EParam 3],
                   Some "location")] None).
Proof. vm_compute. reflexivity. Qed.

(** The statement of [size]: seek back to [location] and report [seek.size],
    from the subquery [seek] that seeks to the end as [size] and passes on
    [tell.location], from the subquery [tell] that reads the position. *)
Lemma parse_size :
  parse LargeObject.size_text
  = Some
      (Select
         [(ECall "lo_lseek64" [EParam 1; EColumn None "location"; EInt 0], None);
          (EColumn (Some "seek") "size", None)]
         (Some
            (Select
               [(ECall "lo_lseek64" [EParam 1; EInt 0; EInt 2], Some "size");
                (EColumn (Some "tell") "location", None)]
               (Some
                  (Select [(ECall "lo_tell64" [EParam 1], Some "location")] None,
                   "tell")),
             "seek"))).
Proof. vm_compute. reflexivity. Qed.

Local Opaque Pg.lo_tell64 Pg.lo_lseek64 Pg.loread.

Lemma run_tell s (fd : Z) :
  run_statement s (tell_query (VData (DNum fd))) = sql_tell s fd.
Proof.
  unfold run_statement, tell_query; cbn [text values]. rewrite parse_tell.
  unfold sql_tell. cbn. by destruct (lo_tell64 s fd).
Qed.

Lemma run_seek s (fd position ref : Z) :
  run_statement s
    (Build_query "npg_lo_lseek64" "SELECT lo_lseek64($1, $2, $3) as location"
       [VData (DNum fd); VData (DNum position); VData (DNum ref)])
  = sql_seek s fd position ref.
Proof.
  unfold run_statement; cbn [text values]. rewrite parse_seek.
  unfold sql_seek. cbn. by destruct (lo_lseek64 s fd position ref) as [[p s'] |].
Qed.

Lemma run_read s (fd len : Z) :
  run_statement s (read_query (VData (DNum fd)) len) = sql_read s fd len.
Proof.
  unfold run_statement, read_query; cbn [text values]. rewrite parse_read.
  unfold sql_read. cbn. by destruct (loread s fd len) as [[data s'] |].
Qed.

(** Read as SQL, the statement of [size] does what [sql_size] says: tell,
    seek to the end, seek back. *)
Lemma run_size s (fd : Z) :
  run_statement s (size_query (VData (DNum fd))) = sql_size s fd.
Proof.
  unfold run_statement, size_query; cbn [text values]. rewrite parse_size.
  unfold sql_size. cbn.
  destruct (lo_tell64 s fd) as [location |]; [| reflexivity]. cbn.
  destruct (lo_lseek64 s fd 0 2) as [[size s1] |]; [| reflexivity]. cbn.
  by destruct (lo_lseek64 s1 fd location 0) as [[back s2] |].
Qed.

End Statements.

(** ** size() and the position of the handle *)

Section Size.
Import Pg.
Implicit Types (s : Pg.state) (d : Pg.descriptor).

Lemma lo_tell64_open s fd d content :
  open_at s fd d content -> lo_tell64 s fd = Some (d_pos d).
Proof. intros (Hd & _). unfold lo_tell64. by rewrite Hd. Qed.

Lemma lo_lseek64_end s fd d content :
  open_at s fd d content ->
  lo_lseek64 s fd 0 2
  = Some (Z.of_nat (length content),
          Build_state (objects s)
            (<[fd := Build_descriptor (d_oid d) (Z.of_nat (length content))]>
               (descriptors s))).
Proof.
  intros (Hd & Ho & Hpos & Hsz). unfold lo_lseek64, object_size.
  rewrite Hd; cbn. rewrite Ho; cbn. rewrite Z.add_0_r.
  destruct (Z.leb_spec 0 (Z.of_nat (length content))); [| lia].
  destruct (Z.leb_spec (Z.of_nat (length content)) MAX_LARGE_OBJECT_SIZE);
    [done | lia].
Qed.

Lemma lo_lseek64_set s fd d content (target : Z) :
  open_at s fd d content ->
  0 <= target <= MAX_LARGE_OBJECT_SIZE ->
  lo_lseek64 s fd target 0
  = Some (target,
          Build_state (objects s)
            (<[fd := Build_descriptor (d_oid d) target]> (descriptors s))).
Proof.
  intros (Hd & Ho & Hpos & Hsz) Ht. unfold lo_lseek64, object_size.
  rewrite Hd; cbn. rewrite Ho; cbn. rewrite Z.add_0_l.
  destruct (Z.leb_spec 0 target); [| lia].
  destruct (Z.leb_spec target MAX_LARGE_OBJECT_SIZE); [done | lia].
Qed.

(** Moving a descriptor keeps it open on the same object. *)
Lemma open_at_moved s fd d content (target : Z) :
  open_at s fd d content ->
  0 <= target <= MAX_LARGE_OBJECT_SIZE ->
  open_at (Build_state (objects s)
             (<[fd := Build_descriptor (d_oid d) target]> (descriptors s)))
          fd (Build_descriptor (d_oid d) target) content.
Proof.
  intros (Hd & Ho & Hpos & Hsz) Ht. unfold open_at; cbn.
  rewrite lookup_insert_eq. auto.
Qed.

(** The statement of [size] answers the length of the object and leaves
    the server as it found it. *)
Lemma sql_size_restores s fd d content :
  open_at s fd d content ->
  sql_size s fd
  = Some (DObject [("lo_lseek64", DNum (d_pos d));
                   ("size", DNum (Z.of_nat (length content)))], s).
Proof.
  intros Hopen. unfold sql_size.
  rewrite (lo_tell64_open _ _ _ _ Hopen); cbn.
  rewrite (lo_lseek64_end _ _ _ _ Hopen); cbn.
  assert (Hend : 0 <= Z.of_nat (length content) <= MAX_LARGE_OBJECT_SIZE)
    by (destruct Hopen as (_ & _ & _ & ?); lia).
  pose proof (open_at_moved _ _ _ _ _ Hopen Hend) as Hmoved.
  destruct Hopen as (Hd & Ho & Hpos & Hsz).
  rewrite (lo_lseek64_set _ _ _ _ (d_pos d) Hmoved Hpos); cbn.
  do 3 f_equal. rewrite insert_insert_eq.
  destruct s as [objs descs], d as [o p]; cbn in *.
  f_equal. by apply insert_id.
Qed.

Lemma respond_tell s fd d content :
  open_at s fd d content ->
  respond s (tell_query (VData (DNum fd))) = (s, (DNull, rows (DObject [("location", DNum (d_pos d))]))).
Proof.
  intros Hopen. unfold respond. rewrite run_tell.
  unfold sql_tell. by rewrite (lo_tell64_open _ _ _ _ Hopen).
Qed.

Lemma respond_size s fd d content :
  open_at s fd d content ->
  respond s (size_query (VData (DNum fd)))
  = (s, (DNull, rows (DObject [("lo_lseek64", DNum (d_pos d));
                               ("size", DNum (Z.of_nat (length content)))]))).
Proof.
  intros Hopen. unfold respond. rewrite run_size.
  by rewrite (sql_size_restores _ _ _ _ Hopen).
Qed.

End Size.

Lemma first_col_row col (callback : Callback) (fields : list (string * datum)) :
  LargeObject.first_col col callback DNull (Pg.rows (DObject fields))
  = callback null (VData (assoc DUndefined col fields)) undefined.
Proof. reflexivity. Qed.

(** C4. On a handle open at position [p] on an object of [n] bytes, [tell],
    [size], [tell] in a row report [p], [n] and [p] again, all three without
    error; the server is in the state it was in before, so [size] has moved
    nothing. *)
Theorem size_keeps_position (w : world Pg.state) (fd : Z) (d : Pg.descriptor)
    (content : list Byte.byte) (oid : value) (k : value -> act) :
  pending w = [] ->
  open_at (server w) fd d content ->
  let obj := Build_LargeObject oid (VData (DNum fd)) in
  let p := VData (DNum (Pg.d_pos d)) in
  let n := VData (DNum (Z.of_nat (length content))) in
  ticks Pg.respond 3 (run_callback (tell_size_tell obj k) w)
  = run_callback (k (VArray [null; p; null; n; null; p]))
      (Build_world (server w) [] (promises w)
         (trace w ++ [EQuery (tell_query (VData (DNum fd)));
                      EQuery (size_query (VData (DNum fd)));
                      EQuery (tell_query (VData (DNum fd)))])).
Proof.
  intros Hp Hopen obj p n. subst obj p n.
  unfold tell_size_tell, LargeObject.tell, LargeObject.size.
  cbn [_fd]. fold (tell_query (VData (DNum fd))) (size_query (VData (DNum fd))).
  rewrite run_callback_query. cbn [ticks].
  erewrite tick_enqueue; [| exact Hp | exact (respond_tell _ _ _ _ Hopen)].
  rewrite first_col_row, run_callback_query.
  erewrite tick_enqueue; [| reflexivity | exact (respond_size _ _ _ _ Hopen)].
  rewrite first_col_row, run_callback_query.
  erewrite tick_enqueue; [| reflexivity | exact (respond_tell _ _ _ _ Hopen)].
  rewrite first_col_row. cbn [promises trace assoc String.eqb].
  by rewrite <- !app_assoc.
Qed.

(** ** Reading a large object to its end *)

Section ReadToEnd.
Import Pg.
Implicit Types (s : Pg.state) (d : Pg.descriptor) (w : world Pg.state).

Lemma respond_read s fd d content (len : Z) :
  descriptors s !! fd = Some d ->
  objects s !! d_oid d = Some content ->
  let data := take (Z.to_nat len) (drop (Z.to_nat (d_pos d)) content) in
  respond s (read_query (VData (DNum fd)) len)
  = (Build_state (objects s)
       (<[fd := Build_descriptor (d_oid d) (d_pos d + Z.of_nat (length data))]>
          (descriptors s)),
     (DNull, rows (DObject [("data", DBuffer data)]))).
Proof.
  intros Hd Ho data. unfold respond. rewrite run_read.
  unfold sql_read, loread. rewrite Hd; cbn. by rewrite Ho.
Qed.

Lemma pump_at_end respond (this : stream_obj) (len : Z) (fuel : nat) w :
  at_end w = true -> pump respond this len fuel w = w.
Proof. intros Hend. destruct fuel; cbn; [done | by rewrite Hend]. Qed.

(** X25. Pulled with [len > 0] from a descriptor at position [d_pos d], the
    stream pushes the rest of the object and then its end mark; that takes
    one read per full chunk and one more, and nothing stays unanswered. *)
Lemma pump_reads_to_end (this : stream_obj) (fd len : Z)
    (content : list Byte.byte) :
  0 < len ->
  _fd (_largeObject this) = VData (DNum fd) ->
  forall (fuel : nat) w d,
    pending w = [] ->
    at_end w = false ->
    descriptors (server w) !! fd = Some d ->
    objects (server w) !! d_oid d = Some content ->
    0 <= d_pos d ->
    let rest := drop (Z.to_nat (d_pos d)) content in
    (length rest / Z.to_nat len < fuel)%nat ->
    let w' := pump respond this len fuel w in
    pushed_bytes w' = pushed_bytes w ++ rest /\
    length (queries_of w')
      = (length (queries_of w) + length rest / Z.to_nat len + 1)%nat /\
    last (trace w') = Some (EPush null) /\
    pending w' = [].
Proof.
  intros Hlen Hfd. induction fuel as [| fuel IH];
    intros w d Hp Hend Hd Ho Hpos rest Hfuel w'; [lia |].
  subst w'. cbn [pump]. rewrite Hend.
  set (data := take (Z.to_nat len) rest).
  pose proof (respond_read (server w) fd d content len Hd Ho) as Hr.
  cbn zeta in Hr. fold rest in Hr. fold data in Hr.
  rewrite <- Hfd in Hr at 1.
  destruct (read_answered respond w this len _ _ _ data Hlen Hp Hr
              eq_refl eq_refl) as [_ ->].
  assert (Hn : (0 < Z.to_nat len)%nat) by lia.
  assert (Hdata : length data = Nat.min (Z.to_nat len) (length rest))
    by (unfold data; apply length_take).
  destruct (Z.ltb_spec (Z.of_nat (length data)) len) as [Hshort | Hfull].
  - (* the last chunk *)
    assert (Hall : data = rest).
    { unfold data. apply take_ge. lia. }
    rewrite pump_at_end.
    2: { unfold at_end; cbn [trace]. rewrite !existsb_app. cbn.
         by rewrite !orb_true_r. }
    cbn [trace pending].
    assert (Hdiv : (length rest / Z.to_nat len = 0)%nat)
      by (apply Nat.div_small; lia).
    repeat split.
    + unfold pushed_bytes. cbn [trace]. rewrite !omap_app, !concat_app. cbn.
      by rewrite !app_nil_r, Hall.
    + unfold queries_of; cbn [trace]. rewrite !omap_app, !length_app. cbn. lia.
    + cbn [trace]. change [EQuery (read_query (_fd (_largeObject this)) len);
              EPush (VData (DBuffer data)); EPush null]
        with ([EQuery (read_query (_fd (_largeObject this)) len);
               EPush (VData (DBuffer data))] ++ [EPush null]).
      by rewrite !app_assoc, last_snoc.
  - (* a full chunk: the consumer pulls again *)
    assert (Hfull' : length data = Z.to_nat len) by lia.
    assert (Hge : (Z.to_nat len <= length rest)%nat) by lia.
    rewrite app_nil_r.
    set (w1 := Build_world _ _ _ _).
    set (d1 := Build_descriptor (d_oid d) (d_pos d + Z.of_nat (length data))).
    assert (Hrest1 : drop (Z.to_nat (d_pos d1)) content = drop (Z.to_nat len) rest).
    { unfold d1, rest; cbn [d_pos]. rewrite drop_drop. f_equal. lia. }
    assert (Hdiv : (length rest / Z.to_nat len
                    = length (drop (Z.to_nat len) rest) / Z.to_nat len + 1)%nat).
    { rewrite length_drop.
      replace (length rest)
        with ((length rest - Z.to_nat len) + 1 * Z.to_nat len)%nat at 1 by lia.
      rewrite Nat.div_add by lia. reflexivity. }
    assert (Hend1 : at_end w1 = false).
    { unfold at_end, w1; cbn [trace]. rewrite existsb_app. cbn.
      unfold at_end in Hend. by rewrite Hend. }
    destruct (IH w1 d1) as (Hpush & Hq & Hlast & Hpend).
    + reflexivity.
    + exact Hend1.
    + unfold w1, d1; cbn [server descriptors]. apply lookup_insert_eq.
    + unfold w1, d1; cbn [server objects d_oid]. exact Ho.
    + unfold d1; cbn [d_pos]. lia.
    + rewrite Hrest1. lia.
    + rewrite Hrest1 in Hpush, Hq.
      assert (Hpush1 : pushed_bytes w1 = pushed_bytes w ++ data).
      { unfold pushed_bytes, w1; cbn [trace].
        rewrite omap_app, concat_app. cbn. by rewrite app_nil_r. }
      assert (Hq1 : length (queries_of w1) = S (length (queries_of w))).
      { unfold queries_of, w1; cbn [trace].
        rewrite omap_app, length_app. cbn. lia. }
      repeat split.
      * rewrite Hpush, Hpush1, <- app_assoc. f_equal.
        unfold data. apply take_drop.
      * rewrite Hq, Hq1. lia.
      * exact Hlast.
      * exact Hpend.
Qed.

End ReadToEnd.

(** ** The convenience operations and their automatic close *)

Section AutoClose.
Context {DB : Type}.
Implicit Types (w : world DB) (respond : DB -> query -> DB * (datum * datum)).

Lemma close_when_done_quiet (event : string) (obj : LargeObject)
    (opts : list (string * value)) :
  String.eqb event "error" = false ->
  closes_quietly_on (DB := DB) event
    (on (Stream obj opts []) event (LargeObjectManager.close_when_done obj)).
Proof.
  intros Hev. unfold closes_quietly_on, on; cbn [listeners _largeObject app dispatch].
  rewrite Hev, String.eqb_refl. split; [reflexivity |].
  split.
  { intros other Hne. cbn [dispatch].
    by rewrite (proj2 (String.eqb_neq event other)). }
  intros respond w s' err result Hp Hr.
  unfold LargeObjectManager.close_when_done, LargeObject.close.
  cbn [seq LargeObject.err_only]. fold (close_query (_fd obj)).
  rewrite run_callback_query. split; [apply queries_of_enqueue |].
  erewrite tick_enqueue by eassumption.
  cbv beta. destruct (truthy err); unfold run_callback; cbn;
    rewrite ?log_build, <- ?app_assoc; reflexivity.
Qed.

Lemma openAndReadableStream_wires respond w (oid : value) (bufferSize : arg)
    (cb0 : option Callback) (bs : value) (callback : Callback)
    (s1 s2 : DB) (fd size : value) :
  pending w = [] ->
  truthy oid = true ->
  LargeObjectManager.shift_args bufferSize cb0 = (bs, Some callback) ->
  succeeds respond (server w)
    (open_query oid (VData (DNum LargeObjectManager.READ))) "fd" s1 fd ->
  succeeds respond s1 (size_query fd) "size" s2 size ->
  exists stream,
    ticks respond 2
      (run_callback (LargeObjectManager.openAndReadableStream oid bufferSize cb0) w)
    = run_callback (callback null size (VReadStream stream))
        (Build_world s2 [] (promises w)
           (trace w ++ [EQuery (open_query oid (VData (DNum LargeObjectManager.READ)));
                        EQuery (size_query fd)])) /\
    _largeObject stream = Build_LargeObject oid fd /\
    highWaterMark stream = js_or bs (VData (DNum 16384)) /\
    closes_quietly_on (DB := DB) "end" stream.
Proof.
  intros Hp Hoid Hshift (e1 & r1 & Hr1 & He1 & Hfd) (e2 & r2 & Hr2 & He2 & Hsz).
  eexists. split; [| split; [| split]]; cycle 3.
  { apply close_when_done_quiet. reflexivity. }
  - unfold LargeObjectManager.openAndReadableStream. rewrite Hshift.
    unfold LargeObjectManager.open. rewrite Hoid. cbn [negb].
    fold (open_query oid (VData (DNum LargeObjectManager.READ))).
    rewrite run_callback_query. cbn [ticks].
    erewrite tick_enqueue by eassumption.
    cbv beta. rewrite He1, Hfd.
    cbn [LargeObjectManager.with_LargeObject truthy null].
    unfold LargeObject.size. cbn [_fd]. fold (size_query fd).
    rewrite run_callback_query.
    erewrite tick_enqueue; [| reflexivity | exact Hr2].
    unfold LargeObject.first_col. rewrite He2, Hsz.
    cbn [truthy null call promises trace].
    rewrite <- app_assoc. reflexivity.
  - reflexivity.
  - reflexivity.
Qed.

End AutoClose.

Section AutoCloseWrite.
Context {DB : Type}.
Implicit Types (w : world DB) (respond : DB -> query -> DB * (datum * datum)).

Lemma createAndWritableStream_wires respond w (bufferSize : arg)
    (cb0 : option Callback) (bs : value) (callback : Callback)
    (s1 s2 : DB) (new_oid fd : value) :
  pending w = [] ->
  LargeObjectManager.shift_args bufferSize cb0 = (bs, Some callback) ->
  succeeds respond (server w) create_query "oid" s1 new_oid ->
  truthy new_oid = true ->
  succeeds respond s1
    (open_query new_oid (VData (DNum LargeObjectManager.WRITE))) "fd" s2 fd ->
  exists stream,
    ticks respond 2
      (run_callback (LargeObjectManager.createAndWritableStream bufferSize cb0) w)
    = run_callback (callback null new_oid (VWriteStream stream))
        (Build_world s2 [] (promises w)
           (trace w ++ [EQuery create_query;
                        EQuery (open_query new_oid
                                  (VData (DNum LargeObjectManager.WRITE)))])) /\
    _largeObject stream = Build_LargeObject new_oid fd /\
    highWaterMark stream = js_or bs (VData (DNum 16384)) /\
    closes_quietly_on (DB := DB) "finish" stream.
Proof.
  intros Hp Hshift (e1 & r1 & Hr1 & He1 & Hnew) Hoid
         (e2 & r2 & Hr2 & He2 & Hfd).
  eexists. split; [| split; [| split]]; cycle 3.
  { apply close_when_done_quiet. reflexivity. }
  - unfold LargeObjectManager.createAndWritableStream. rewrite Hshift.
    unfold LargeObjectManager.create.
    change (Build_query "npg_lo_creat" "SELECT lo_creat($1) AS oid"
              [VData (DNum LargeObjectManager.READWRITE)]) with create_query.
    rewrite run_callback_query. cbn [ticks].
    erewrite tick_enqueue by eassumption.
    cbv beta. rewrite He1, Hnew. cbn [truthy null].
    unfold LargeObjectManager.open. rewrite Hoid. cbn [negb].
    fold (open_query new_oid (VData (DNum LargeObjectManager.WRITE))).
    rewrite run_callback_query.
    erewrite tick_enqueue; [| reflexivity | exact Hr2].
    cbv beta. rewrite He2, Hfd.
    cbn [LargeObjectManager.with_LargeObject truthy null call promises trace].
    rewrite <- app_assoc. reflexivity.
  - reflexivity.
  - reflexivity.
Qed.

(** C2. When [openAndReadableStream] (open, then size) or
    [createAndWritableStream] (create, then open) has succeeded, the
    caller's callback receives a stream on which the library listens for
    ['end'] (read) or ['finish'] (write) and for nothing else: a stream
    error runs no listener and closes nothing, and the close that follows
    the natural end can, when it fails, only print the warning; it reaches
    neither the caller's callback nor any promise, and throws nothing. *)
Theorem auto_close_failure_only_warns respond w (bufferSize : arg)
    (cb0 : option Callback) (bs : value) (callback : Callback) :
  pending w = [] ->
  LargeObjectManager.shift_args bufferSize cb0 = (bs, Some callback) ->
  (forall (oid fd size : value) (s1 s2 : DB),
     truthy oid = true ->
     succeeds respond (server w)
       (open_query oid (VData (DNum LargeObjectManager.READ))) "fd" s1 fd ->
     succeeds respond s1 (size_query fd) "size" s2 size ->
     exists stream,
       ticks respond 2
         (run_callback
            (LargeObjectManager.openAndReadableStream oid bufferSize cb0) w)
       = run_callback (callback null size (VReadStream stream))
           (Build_world s2 [] (promises w)
              (trace w ++
                 [EQuery (open_query oid (VData (DNum LargeObjectManager.READ)));
                  EQuery (size_query fd)])) /\
       _largeObject stream = Build_LargeObject oid fd /\
       closes_quietly_on (DB := DB) "end" stream) /\
  (forall (new_oid fd : value) (s1 s2 : DB),
     succeeds respond (server w) create_query "oid" s1 new_oid ->
     truthy new_oid = true ->
     succeeds respond s1
       (open_query new_oid (VData (DNum LargeObjectManager.WRITE))) "fd" s2 fd ->
     exists stream,
       ticks respond 2
         (run_callback
            (LargeObjectManager.createAndWritableStream bufferSize cb0) w)
       = run_callback (callback null new_oid (VWriteStream stream))
           (Build_world s2 [] (promises w)
              (trace w ++
                 [EQuery create_query;
                  EQuery (open_query new_oid
                            (VData (DNum LargeObjectManager.WRITE)))])) /\
       _largeObject stream = Build_LargeObject new_oid fd /\
       closes_quietly_on (DB := DB) "finish" stream).
Proof.
  intros Hp Hshift. split.
  - intros oid fd size s1 s2 Hoid Hopen Hsize.
    destruct (openAndReadableStream_wires respond w oid bufferSize cb0 bs
                callback s1 s2 fd size Hp Hoid Hshift Hopen Hsize)
      as (stream & Hrun & Hobj & _ & Hclose).
    by exists stream.
  - intros new_oid fd s1 s2 Hcreate Hoid Hopen.
    destruct (createAndWritableStream_wires respond w bufferSize cb0 bs
                callback s1 s2 new_oid fd Hp Hshift Hcreate Hoid Hopen)
      as (stream & Hrun & Hobj & _ & Hclose).
    by exists stream.
Qed.

End AutoCloseWrite.

(** ** The tests of the repository, replayed on the model *)

Section Tests.
Import Sample.

(** test/promiseFromCallback.js, [testResolve] *)
Example testResolve :
  promiseFromCallback
    (fun (self : value) callback => callback null (VData (DNum 1234)) undefined)
    myThisObject undefined idle
  = (Build_world tt [] [Fulfilled (VData (DNum 1234))] [], Normal 0%nat).
Proof. reflexivity. Qed.

(** [testResolveWithTwoArgs] *)
Example testResolveWithTwoArgs :
  promiseFromCallback
    (fun (self : value) callback =>
       callback null (VData (DNum 1234)) (VData (DNum 4567)))
    myThisObject (VData (DObject [("twoArgs", DBool true)])) idle
  = (Build_world tt [] [Fulfilled (VArray [VData (DNum 1234); VData (DNum 4567)])] [],
     Normal 0%nat).
Proof. reflexivity. Qed.

(** [testReject] *)
Example testReject :
  promiseFromCallback
    (fun (self : value) callback =>
       callback (VData (DError "foo")) (VData (DNum 1234)) undefined)
    myThisObject undefined idle
  = (Build_world tt [] [Rejected (VData (DError "foo"))] [], Normal 0%nat).
Proof. reflexivity. Qed.

(** [testThrow] *)
Example testThrow :
  promiseFromCallback
    (fun (self : value) (callback : Callback) => Throw (VData (DError "bar")))
    myThisObject undefined idle
  = (Build_world tt [] [Rejected (VData (DError "bar"))] [], Normal 0%nat).
Proof. reflexivity. Qed.

Example testRead_passes :
  last (trace (ticks Pg.respond 7
                 (run_callback (testRead handle (fun r => ConsoleError "test" r Ret))
                    (pg_idle 0))))
  = Some (EConsoleError "test"
            (VArray [VData (DBuffer [Byte.x01; Byte.x23]);
                     VData (DNum 2);
                     VData (DNum 8);
                     VData (DNum 2);
                     VData (DBuffer [Byte.x45; Byte.x67; Byte.x89; Byte.xab;
                                     Byte.xcd; Byte.xef]);
                     VData (DBuffer [Byte.xcd; Byte.xef])])).
Proof. vm_compute. reflexivity. Qed.

(** The test object streamed in chunks of 3 bytes: three reads, the last one
    short, then the end mark. *)
Example stream_of_testBuf :
  trace (pump Pg.respond (new_ReadStream handle (VData (DNum 3))) 3 10 (pg_idle 0))
  = [EQuery (read_query (VData (DNum 0)) 3);
     EPush (VData (DBuffer [Byte.x01; Byte.x23; Byte.x45]));
     EQuery (read_query (VData (DNum 0)) 3);
     EPush (VData (DBuffer [Byte.x67; Byte.x89; Byte.xab]));
     EQuery (read_query (VData (DNum 0)) 3);
     EPush (VData (DBuffer [Byte.xcd; Byte.xef]));
     EPush null].
Proof. vm_compute. reflexivity. Qed.

(** Reading to the end with a [close] that fails: the callback has run once,
    with the size and the stream, and the failure shows as the warning only. *)
Example close_failure_is_logged :
  let w := ticks (close_fails Witness.row) 3
             (run_callback
                (LargeObjectManager.openAndReadableStream (VData (DNum 16385))
                   (AFunction read_to_end) None) idle) in
  trace w
  = [EQuery (open_query (VData (DNum 16385)) (VData (DNum LargeObjectManager.READ)));
     EQuery (size_query (VData (DNum 0)));
     EConsoleError "callback"
       (VArray [null; VData (DNum 3); VData (DStr "stream")]);
     EQuery (close_query (VData (DNum 0)));
     EConsoleError LargeObjectManager.close_warning (VData (DError "lo_close failed"))]
  /\ pending w = [] /\ promises w = [].
Proof. vm_compute. repeat split. Qed.

End Tests.

(** * Further properties of the operations *)

(** ** Answers of the database, operation by operation *)

Section Answers.
Context {DB : Type}.
Implicit Types (w : world DB) (respond : DB -> query -> DB * (datum * datum)).

Lemma perform_query respond w q f s' err result :
  pending w = [] ->
  respond (server w) q = (s', (err, result)) ->
  perform respond (Query q (Some f) Ret) w
  = Some (run_callback (f err result) (answered w s' q)).
Proof.
  intros Hp Hr. unfold perform. rewrite run_callback_query.
  by erewrite tick_enqueue by eassumption.
Qed.

Lemma first_col_error col (callback : Callback) (err result : datum) :
  truthy err = true ->
  LargeObject.first_col col callback err result = callback err undefined undefined.
Proof. intros He. unfold LargeObject.first_col. by rewrite He. Qed.

Lemma first_col_throws col (callback : Callback) (err result : datum) e :
  truthy err = false ->
  first_row_col result col = Thrown e ->
  LargeObject.first_col col callback err result = Throw e.
Proof. intros He Hr. unfold LargeObject.first_col. by rewrite He, Hr. Qed.

Lemma first_col_value col (callback : Callback) (err result : datum) v :
  truthy err = false ->
  first_row_col result col = Normal v ->
  LargeObject.first_col col callback err result = callback null v undefined.
Proof. intros He Hr. unfold LargeObject.first_col. by rewrite He, Hr. Qed.

Lemma run_callback_throw w e : run_callback (Throw e) w = log (EUncaught e) w.
Proof. reflexivity. Qed.

(** X1. When the database answers with an error, every operation that
    returns a value (open, create, read, seek, tell, size) calls the
    caller's callback with that error alone and does not look at the
    result. *)
Theorem database_error_passes_through respond w (this : LargeObject)
    (oid mode length position ref : value) (callback : Callback)
    (s' : DB) (err result : datum) :
  pending w = [] ->
  truthy oid = true ->
  (forall q, respond (server w) q = (s', (err, result))) ->
  truthy err = true ->
  let fails (a : act) (q : query) :=
    perform respond a w
    = Some (run_callback (callback err undefined undefined) (answered w s' q)) in
  fails (LargeObjectManager.open oid mode callback) (open_query oid mode) /\
  fails (LargeObjectManager.create callback) create_query /\
  fails (LargeObject.read this length callback)
        (Build_query "npg_loread" "SELECT loread($1, $2) as data" [_fd this; length]) /\
  fails (LargeObject.seek this position ref (Some callback))
        (Build_query "npg_lo_lseek64" "SELECT lo_lseek64($1, $2, $3) as location"
                     [_fd this; position; ref]) /\
  fails (LargeObject.tell this callback) (tell_query (_fd this)) /\
  fails (LargeObject.size this callback) (size_query (_fd this)).
Proof.
  intros Hp Hoid Hr He fails. subst fails. cbv beta.
  unfold LargeObjectManager.open, LargeObjectManager.create, LargeObject.read,
    LargeObject.seek, LargeObject.tell, LargeObject.size.
  rewrite Hoid. cbn [negb].
  repeat split;
    (erewrite perform_query; [| exact Hp | apply Hr]);
    cbv beta; rewrite ?first_col_error by exact He; rewrite ?He; reflexivity.
Qed.

(** X2. close, write, truncate and unlink, called with a callback, call it
    once the database has answered, with the error of the answer as it is
    (a falsy one on success) and with nothing else, whatever the result
    holds. *)
Theorem err_only_operations_report_err respond w (this : LargeObject)
    (oid buffer length : value) (callback : Callback)
    (s' : DB) (err result : datum) :
  pending w = [] ->
  truthy oid = true ->
  (forall q, respond (server w) q = (s', (err, result))) ->
  let reports (a : act) (q : query) :=
    perform respond a w
    = Some (run_callback (callback err undefined undefined) (answered w s' q)) in
  reports (LargeObject.close this (Some callback)) (close_query (_fd this)) /\
  reports (LargeObject.write this buffer (Some callback))
          (write_query (_fd this) buffer) /\
  reports (LargeObject.truncate this length (Some callback))
          (Build_query "npg_lo_truncate64" "SELECT lo_truncate64($1, $2)"
                       [_fd this; length]) /\
  reports (LargeObjectManager.unlink oid (Some callback)) (unlink_query oid).
Proof.
  intros Hp Hoid Hr reports. subst reports. cbv beta.
  unfold LargeObject.close, LargeObject.write, LargeObject.truncate,
    LargeObjectManager.unlink.
  rewrite Hoid. cbn [negb LargeObject.err_only].
  repeat split; (erewrite perform_query; [| exact Hp | apply Hr]); reflexivity.
Qed.

(** X5. When open succeeds, the callback gets a large object that carries
    the oid that was asked for and, as its descriptor, whatever the first
    row has in column [fd]; a missing column gives a handle whose
    descriptor is [undefined], not an error. *)
Theorem open_hands_over_handle respond w (oid mode fd : value)
    (callback : Callback) (s' : DB) (err result : datum) :
  pending w = [] ->
  truthy oid = true ->
  respond (server w) (open_query oid mode) = (s', (err, result)) ->
  truthy err = false ->
  first_row_col result "fd" = Normal fd ->
  perform respond (LargeObjectManager.open oid mode callback) w
  = Some (run_callback
            (callback null (VLargeObject (Build_LargeObject oid fd)) undefined)
            (answered w s' (open_query oid mode))) /\
  first_row_col (Pg.rows (DObject [])) "fd" = Normal undefined.
Proof.
  intros Hp Hoid Hr He Hfd. split; [| reflexivity].
  unfold LargeObjectManager.open. rewrite Hoid. cbn [negb].
  erewrite perform_query by eassumption.
  cbv beta. by rewrite He, Hfd.
Qed.

End Answers.

(** ** The answer to a pull *)

Section ReadFailures.
Context {DB : Type}.
Implicit Types (w : world DB) (respond : DB -> query -> DB * (datum * datum))
               (this : stream_obj).

Lemma perform_read respond w this (length : Z) (s' : DB) (err result : datum) :
  0 < length ->
  pending w = [] ->
  respond (server w) (read_query (_fd (_largeObject this)) length)
    = (s', (err, result)) ->
  perform respond (ReadStream._read this length) w
  = Some (run_callback
            (LargeObject.first_col "data" (fun error data _ =>
               if truthy error then emit this "error" error
               else Push data
                      (match get_prop data "length" with
                       | Thrown e => Throw e
                       | Normal len => if js_lt len length then Push null Ret else Ret
                       end)) err result)
            (answered w s' (read_query (_fd (_largeObject this)) length))).
Proof.
  intros Hpos Hp Hr. unfold ReadStream._read.
  rewrite (proj2 (Z.leb_gt length 0) Hpos). unfold LargeObject.read.
  fold (read_query (_fd (_largeObject this)) length).
  by erewrite perform_query by eassumption.
Qed.

End ReadFailures.

(** ** The convenience operations when a step fails *)

Section ConvenienceFailures.
Context {DB : Type}.
Implicit Types (w : world DB) (respond : DB -> query -> DB * (datum * datum)).

(** X9. [openAndReadableStream] with a falsy oid throws at once, in both of
    its call forms, before anything is sent and without calling the
    callback; its promise variant returns a promise that is already
    rejected with the same error. *)
Theorem openAndReadableStream_falsy_oid w (oid : value) (bufferSize : arg)
    (cb0 : option Callback) :
  truthy oid = false ->
  exec (LargeObjectManager.openAndReadableStream oid bufferSize cb0) w
    = (w, Thrown IllegalArgument) /\
  LargeObjectManager.openAndReadableStreamAsync oid bufferSize w
    = (with_promise (Rejected IllegalArgument) w, Normal (length (promises w))).
Proof.
  intros Hoid.
  assert (Hthrow : forall cb, LargeObjectManager.openAndReadableStream oid bufferSize cb
                              = Throw IllegalArgument).
  { intros cb. unfold LargeObjectManager.openAndReadableStream.
    destruct (LargeObjectManager.shift_args bufferSize cb) as [bs cb'].
    unfold LargeObjectManager.open. by rewrite Hoid. }
  split.
  - by rewrite Hthrow.
  - unfold LargeObjectManager.openAndReadableStreamAsync.
    apply promiseFromCallback_throw. intros callback. apply Hthrow.
Qed.

(** X10. When the open of [openAndReadableStream] fails, the callback gets
    the error and that is all: the size is not asked for and no stream is
    built. *)
Theorem openAndReadableStream_open_fails respond w (oid : value)
    (bufferSize : arg) (cb0 : option Callback) (bs : value) (callback : Callback)
    (s' : DB) (err result : datum) :
  pending w = [] ->
  truthy oid = true ->
  LargeObjectManager.shift_args bufferSize cb0 = (bs, Some callback) ->
  respond (server w) (open_query oid (VData (DNum LargeObjectManager.READ)))
    = (s', (err, result)) ->
  truthy err = true ->
  perform respond (LargeObjectManager.openAndReadableStream oid bufferSize cb0) w
  = Some (run_callback (callback err undefined undefined)
            (answered w s' (open_query oid (VData (DNum LargeObjectManager.READ))))).
Proof.
  intros Hp Hoid Hshift Hr He.
  unfold LargeObjectManager.openAndReadableStream. rewrite Hshift.
  unfold LargeObjectManager.open. rewrite Hoid. cbn [negb].
  erewrite perform_query by eassumption.
  cbv beta. rewrite He. reflexivity.
Qed.

(** X11. When the open of [openAndReadableStream] succeeds and the size
    query fails, the callback gets the error, and the large object that was
    opened is not closed: the two statements sent are the open and the
    size, and nothing is left to be answered. *)
Theorem openAndReadableStream_size_fails respond w (oid : value)
    (bufferSize : arg) (cb0 : option Callback) (bs : value) (callback : Callback)
    (s1 s2 : DB) (fd : value) (err result : datum) :
  pending w = [] ->
  truthy oid = true ->
  LargeObjectManager.shift_args bufferSize cb0 = (bs, Some callback) ->
  succeeds respond (server w)
    (open_query oid (VData (DNum LargeObjectManager.READ))) "fd" s1 fd ->
  respond s1 (size_query fd) = (s2, (err, result)) ->
  truthy err = true ->
  ticks respond 2
    (run_callback (LargeObjectManager.openAndReadableStream oid bufferSize cb0) w)
  = run_callback (callback err undefined undefined)
      (Build_world s2 [] (promises w)
         (trace w ++ [EQuery (open_query oid (VData (DNum LargeObjectManager.READ)));
                      EQuery (size_query fd)])).
Proof.
  intros Hp Hoid Hshift (e1 & r1 & Hr1 & He1 & Hfd) Hr2 He2.
  unfold LargeObjectManager.openAndReadableStream. rewrite Hshift.
  unfold LargeObjectManager.open. rewrite Hoid. cbn [negb].
  fold (open_query oid (VData (DNum LargeObjectManager.READ))).
  rewrite run_callback_query. cbn [ticks].
  erewrite tick_enqueue by eassumption.
  cbv beta. rewrite He1, Hfd.
  cbn [LargeObjectManager.with_LargeObject truthy null].
  unfold LargeObject.size. cbn [_fd]. fold (size_query fd).
  rewrite run_callback_query.
  erewrite tick_enqueue; [| reflexivity | exact Hr2].
  rewrite first_col_error by exact He2.
  cbv beta. rewrite He2.
  cbn [call promises trace]. by rewrite <- app_assoc.
Qed.

(** X12. When the create of [createAndWritableStream] fails, the callback
    gets the error and nothing is opened. *)
Theorem createAndWritableStream_create_fails respond w (bufferSize : arg)
    (cb0 : option Callback) (bs : value) (callback : Callback)
    (s' : DB) (err result : datum) :
  pending w = [] ->
  LargeObjectManager.shift_args bufferSize cb0 = (bs, Some callback) ->
  respond (server w) create_query = (s', (err, result)) ->
  truthy err = true ->
  perform respond (LargeObjectManager.createAndWritableStream bufferSize cb0) w
  = Some (run_callback (callback err undefined undefined)
            (answered w s' create_query)).
Proof.
  intros Hp Hshift Hr He.
  unfold LargeObjectManager.createAndWritableStream. rewrite Hshift.
  unfold LargeObjectManager.create.
  change (Build_query "npg_lo_creat" "SELECT lo_creat($1) AS oid"
            [VData (DNum LargeObjectManager.READWRITE)]) with create_query.
  erewrite perform_query by eassumption.
  cbv beta. rewrite He. reflexivity.
Qed.

(** X13. When the create of [createAndWritableStream] succeeds and the open
    fails, the callback gets the error without the oid of the object that
    was created, and that object is not unlinked: the two statements sent
    are the create and the open. *)
Theorem createAndWritableStream_open_fails respond w (bufferSize : arg)
    (cb0 : option Callback) (bs : value) (callback : Callback)
    (s1 s2 : DB) (new_oid : value) (err result : datum) :
  pending w = [] ->
  LargeObjectManager.shift_args bufferSize cb0 = (bs, Some callback) ->
  succeeds respond (server w) create_query "oid" s1 new_oid ->
  truthy new_oid = true ->
  respond s1 (open_query new_oid (VData (DNum LargeObjectManager.WRITE)))
    = (s2, (err, result)) ->
  truthy err = true ->
  ticks respond 2
    (run_callback (LargeObjectManager.createAndWritableStream bufferSize cb0) w)
  = run_callback (callback err undefined undefined)
      (Build_world s2 [] (promises w)
         (trace w ++ [EQuery create_query;
                      EQuery (open_query new_oid
                                (VData (DNum LargeObjectManager.WRITE)))])).
Proof.
  intros Hp Hshift (e1 & r1 & Hr1 & He1 & Hnew) Hoid Hr2 He2.
  unfold LargeObjectManager.createAndWritableStream. rewrite Hshift.
  unfold LargeObjectManager.create.
  change (Build_query "npg_lo_creat" "SELECT lo_creat($1) AS oid"
            [VData (DNum LargeObjectManager.READWRITE)]) with create_query.
  rewrite run_callback_query. cbn [ticks].
  erewrite tick_enqueue by eassumption.
  cbv beta. rewrite He1, Hnew. cbn [truthy null].
  unfold LargeObjectManager.open. rewrite Hoid. cbn [negb].
  fold (open_query new_oid (VData (DNum LargeObjectManager.WRITE))).
  rewrite run_callback_query.
  erewrite tick_enqueue; [| reflexivity | exact Hr2].
  cbv beta. rewrite He2.
  cbn [call promises trace]. by rewrite <- app_assoc.
Qed.

End ConvenienceFailures.

(** ** The promise variants *)

Section PromiseVariants.
Context {DB : Type}.
Implicit Types (w : world DB) (respond : DB -> query -> DB * (datum * datum)).

Lemma settle_pending w (ps : list promise_state) (st : promise_state) :
  promises w = ps ++ [Pending] ->
  settle (length ps) st w
  = Build_world (server w) (pending w) (ps ++ [st]) (trace w).
Proof.
  intros Hps. unfold settle. rewrite Hps.
  rewrite list_lookup_middle by reflexivity.
  f_equal. rewrite insert_app_r_alt by reflexivity.
  by rewrite Nat.sub_diag.
Qed.

Lemma settle_settled w (p : nat) (st st' : promise_state) :
  promises w !! p = Some st -> st <> Pending -> settle p st' w = w.
Proof. intros Hp Hst. unfold settle. rewrite Hp. by destruct st. Qed.

Lemma run_promise_callback w (ps : list promise_state)
    (twoArgs error arg1 arg2 : value) :
  promises w = ps ++ [Pending] ->
  run_callback (promise_callback (length ps) twoArgs error arg1 arg2) w
  = Build_world (server w) (pending w)
      (ps ++ [settled_by twoArgs error arg1 arg2]) (trace w).
Proof.
  intros Hps. unfold promise_callback, settled_by, run_callback.
  destruct (truthy error); [| destruct (truthy twoArgs)];
    cbn [exec]; by rewrite (settle_pending w ps _ Hps).
Qed.

(** A promise variant whose operation sends one statement: the promise is
    pending until the answer comes, and the query callback then runs with
    the callback of the promise. *)
Lemma promiseFromCallback_query {Self : Type} (fn : Self -> Callback -> act)
    (self : Self) (opts : value) (q : query)
    (handler : Callback -> datum -> datum -> act)
    respond w (s' : DB) (err result : datum) :
  (forall callback, fn self callback = Query q (Some (handler callback)) Ret) ->
  pending w = [] ->
  respond (server w) q = (s', (err, result)) ->
  promiseFromCallback fn self opts w
    = (enqueue q (Some (handler (promise_callback (length (promises w))
                                   (options_twoArgs opts))))
         (with_promise Pending w),
       Normal (length (promises w))) /\
  perform_async respond (promiseFromCallback fn self opts) w
  = (Some (run_callback
             (handler (promise_callback (length (promises w)) (options_twoArgs opts))
                err result)
             (Build_world s' [] (promises w ++ [Pending]) (trace w ++ [EQuery q]))),
     Normal (length (promises w))).
Proof.
  intros Hfn Hp Hr.
  assert (Hcall : promiseFromCallback fn self opts w
                  = (enqueue q (Some (handler (promise_callback (length (promises w))
                                                 (options_twoArgs opts))))
                       (with_promise Pending w),
                     Normal (length (promises w)))).
  { unfold promiseFromCallback, new_Promise.
    change (fun error arg1 arg2 : value =>
              if truthy error then Reject (length (promises w)) error Ret
              else if truthy (options_twoArgs opts)
                   then Resolve (length (promises w)) (VArray [arg1; arg2]) Ret
                   else Resolve (length (promises w)) arg1 Ret)
      with (promise_callback (length (promises w)) (options_twoArgs opts)).
    by rewrite Hfn. }
  split; [exact Hcall |].
  unfold perform_async. rewrite Hcall. cbn [fst snd]. f_equal.
  by erewrite tick_enqueue; [| exact Hp | exact Hr].
Qed.

(** X15. [openAsync] with a truthy oid returns a pending promise and sends
    one open statement.  When the answer comes, the promise is rejected
    with the error of the database, or fulfilled with a large object that
    carries the oid asked for and the descriptor of the answer. *)
Theorem openAsync_settles respond w (oid mode fd : value)
    (s' : DB) (err result : datum) :
  pending w = [] ->
  truthy oid = true ->
  respond (server w) (open_query oid mode) = (s', (err, result)) ->
  (truthy err = false -> first_row_col result "fd" = Normal fd) ->
  (exists h, LargeObjectManager.openAsync oid mode w
             = (enqueue (open_query oid mode) h (with_promise Pending w),
                Normal (length (promises w)))) /\
  perform_async respond (LargeObjectManager.openAsync oid mode) w
  = (Some (Build_world s' []
             (promises w ++
                [if truthy err then Rejected err
                 else Fulfilled (VLargeObject (Build_LargeObject oid fd))])
             (trace w ++ [EQuery (open_query oid mode)])),
     Normal (length (promises w))).
Proof.
  intros Hp Hoid Hr Hfd.
  destruct (promiseFromCallback_query
              (fun (_ : unit) callback => LargeObjectManager.open oid mode callback)
              tt undefined (open_query oid mode)
              (fun (callback : Callback) (err result : datum) =>
                 if truthy err then callback err undefined undefined
                 else match first_row_col result "fd" with
                      | Thrown e => Throw e
                      | Normal fd =>
                          callback null (VLargeObject (Build_LargeObject oid fd))
                            undefined
                      end)
              respond w s' err result) as [Hcall Hperf].
  { intros callback. unfold LargeObjectManager.open. by rewrite Hoid. }
  { exact Hp. }
  { exact Hr. }
  unfold LargeObjectManager.openAsync. split.
  - eexists. exact Hcall.
  - rewrite Hperf. f_equal. f_equal. cbv beta.
    destruct (truthy err) eqn:He.
    + rewrite (run_promise_callback _ (promises w)) by reflexivity.
      unfold settled_by. by rewrite He.
    + rewrite (Hfd eq_refl).
      by rewrite (run_promise_callback _ (promises w)) by reflexivity.
Qed.

(** The promise variant of an operation that reads one column of the
    answer. *)
Lemma async_first_col {Self : Type} (fn : Self -> Callback -> act) (self : Self)
    (q : query) (col : string) respond w (s' : DB) (err result : datum) :
  (forall callback,
     fn self callback = Query q (Some (LargeObject.first_col col callback)) Ret) ->
  pending w = [] ->
  respond (server w) q = (s', (err, result)) ->
  perform_async respond (promiseFromCallback fn self undefined) w
  = (Some (let after st :=
             Build_world s' [] (promises w ++ [st]) (trace w ++ [EQuery q]) in
           if truthy err then after (Rejected err)
           else match first_row_col result col with
                | Normal v => after (Fulfilled v)
                | Thrown e => log (EUncaught e) (after Pending)
                end),
     Normal (length (promises w))).
Proof.
  intros Hfn Hp Hr.
  destruct (promiseFromCallback_query fn self undefined q
              (fun callback => LargeObject.first_col col callback)
              respond w s' err result Hfn Hp Hr) as [_ ->].
  f_equal. f_equal. cbv zeta. unfold LargeObject.first_col.
  destruct (truthy err) eqn:He.
  - rewrite (run_promise_callback _ (promises w)) by reflexivity.
    unfold settled_by. by rewrite He.
  - destruct (first_row_col result col) as [v | e].
    + by rewrite (run_promise_callback _ (promises w)) by reflexivity.
    + reflexivity.
Qed.

(** The promise variant of an operation that only reports the error. *)
Lemma async_err_only {Self : Type} (fn : Self -> Callback -> act) (self : Self)
    (q : query) respond w (s' : DB) (err result : datum) :
  (forall callback,
     fn self callback = Query q (LargeObject.err_only (Some callback)) Ret) ->
  pending w = [] ->
  respond (server w) q = (s', (err, result)) ->
  perform_async respond (promiseFromCallback fn self undefined) w
  = (Some (Build_world s' []
             (promises w ++ [if truthy err then Rejected err else Fulfilled undefined])
             (trace w ++ [EQuery q])),
     Normal (length (promises w))).
Proof.
  intros Hfn Hp Hr.
  destruct (promiseFromCallback_query fn self undefined q
              (fun (callback : Callback) (err result : datum) =>
                 callback err undefined undefined)
              respond w s' err result Hfn Hp Hr) as [_ ->].
  f_equal. f_equal. cbv beta.
  rewrite (run_promise_callback _ (promises w)) by reflexivity.
  unfold settled_by. by destruct (truthy err).
Qed.

(** X16. [createAsync], [readAsync], [seekAsync], [tellAsync] and
    [sizeAsync] return a promise that the answer settles: rejected with the
    error of the database, or fulfilled with the value the first row has in
    the column of the operation ([oid], [data], [location], [location],
    [size]). *)
Theorem value_promises_settle respond w (this : LargeObject)
    (length position ref : value) (s' : DB) (err result : datum)
    (column : string -> value) :
  pending w = [] ->
  (forall q, respond (server w) q = (s', (err, result))) ->
  (truthy err = false -> forall col, first_row_col result col = Normal (column col)) ->
  let settles (call : world DB -> world DB * completion nat) (q : query)
              (col : string) :=
    perform_async respond call w
    = (Some (Build_world s' []
               (promises w ++
                  [if truthy err then Rejected err else Fulfilled (column col)])
               (trace w ++ [EQuery q])),
       Normal (List.length (promises w))) in
  settles LargeObjectManager.createAsync create_query "oid" /\
  settles (LargeObject.readAsync this length)
          (Build_query "npg_loread" "SELECT loread($1, $2) as data" [_fd this; length])
          "data" /\
  settles (LargeObject.seekAsync this position ref)
          (Build_query "npg_lo_lseek64" "SELECT lo_lseek64($1, $2, $3) as location"
                       [_fd this; position; ref]) "location" /\
  settles (LargeObject.tellAsync this) (tell_query (_fd this)) "location" /\
  settles (LargeObject.sizeAsync this) (size_query (_fd this)) "size".
Proof.
  intros Hp Hr Hcol settles. subst settles. cbv beta.
  unfold LargeObjectManager.createAsync, LargeObject.readAsync,
    LargeObject.seekAsync, LargeObject.tellAsync, LargeObject.sizeAsync.
  repeat split;
    (erewrite async_first_col; [| intros callback; reflexivity | exact Hp | apply Hr]);
    cbv zeta; (destruct (truthy err) eqn:He; [reflexivity |]);
    by rewrite (Hcol eq_refl).
Qed.

(** X18. [closeAsync], [writeAsync], [truncateAsync] and [unlinkAsync]
    return a promise that the answer settles: rejected with the error of
    the database, or fulfilled with [undefined]. *)
Theorem err_only_promises_settle respond w (this : LargeObject)
    (oid buffer length : value) (s' : DB) (err result : datum) :
  pending w = [] ->
  truthy oid = true ->
  (forall q, respond (server w) q = (s', (err, result))) ->
  let settles (call : world DB -> world DB * completion nat) (q : query) :=
    perform_async respond call w
    = (Some (Build_world s' []
               (promises w ++
                  [if truthy err then Rejected err else Fulfilled undefined])
               (trace w ++ [EQuery q])),
       Normal (List.length (promises w))) in
  settles (LargeObject.closeAsync this) (close_query (_fd this)) /\
  settles (LargeObject.writeAsync this buffer) (write_query (_fd this) buffer) /\
  settles (LargeObject.truncateAsync this length)
          (Build_query "npg_lo_truncate64" "SELECT lo_truncate64($1, $2)"
                       [_fd this; length]) /\
  settles (LargeObjectManager.unlinkAsync oid) (unlink_query oid).
Proof.
  intros Hp Hoid Hr settles. subst settles. cbv beta.
  unfold LargeObject.closeAsync, LargeObject.writeAsync,
    LargeObject.truncateAsync, LargeObjectManager.unlinkAsync.
  repeat split;
    (erewrite async_err_only; [reflexivity | | exact Hp | apply Hr]);
    intros callback; try reflexivity.
  unfold LargeObjectManager.unlink. by rewrite Hoid.
Qed.

Lemma promiseFromCallback_returns {Self : Type} (fn : Self -> Callback -> act)
    (self : Self) (opts : value) w :
  (forall callback w', exec (fn self callback) w'
                       = (run_callback (fn self callback) w', Normal tt)) ->
  promiseFromCallback fn self opts w
  = (run_callback (fn self (promise_callback (length (promises w))
                              (options_twoArgs opts)))
       (with_promise Pending w),
     Normal (length (promises w))).
Proof.
  intros Hfn. unfold promiseFromCallback, new_Promise.
  change (fun error arg1 arg2 : value =>
            if truthy error then Reject (length (promises w)) error Ret
            else if truthy (options_twoArgs opts)
                 then Resolve (length (promises w)) (VArray [arg1; arg2]) Ret
                 else Resolve (length (promises w)) arg1 Ret)
    with (promise_callback (length (promises w)) (options_twoArgs opts)).
  by rewrite Hfn.
Qed.

(** X19. The promise of [openAndReadableStreamAsync] is fulfilled, once open
    and size have succeeded, with the array of the size and the stream;
    that of [createAndWritableStreamAsync], once create and open have
    succeeded, with the array of the new oid and the stream.  The stream is
    bound to the large object that was opened and has [bufferSize || 16384]
    as its [highWaterMark]. *)
Theorem stream_promises_fulfil_with_pair respond w (bufferSize : value) :
  pending w = [] ->
  (forall (oid fd size : value) (s1 s2 : DB),
     truthy oid = true ->
     succeeds respond (server w)
       (open_query oid (VData (DNum LargeObjectManager.READ))) "fd" s1 fd ->
     succeeds respond s1 (size_query fd) "size" s2 size ->
     exists stream,
       ticks respond 2
         (fst (LargeObjectManager.openAndReadableStreamAsync oid
                 (AValue bufferSize) w))
       = Build_world s2 []
           (promises w ++ [Fulfilled (VArray [size; VReadStream stream])])
           (trace w ++
              [EQuery (open_query oid (VData (DNum LargeObjectManager.READ)));
               EQuery (size_query fd)]) /\
       _largeObject stream = Build_LargeObject oid fd /\
       highWaterMark stream = js_or bufferSize (VData (DNum 16384))) /\
  (forall (new_oid fd : value) (s1 s2 : DB),
     succeeds respond (server w) create_query "oid" s1 new_oid ->
     truthy new_oid = true ->
     succeeds respond s1
       (open_query new_oid (VData (DNum LargeObjectManager.WRITE))) "fd" s2 fd ->
     exists stream,
       ticks respond 2
         (fst (LargeObjectManager.createAndWritableStreamAsync
                 (AValue bufferSize) w))
       = Build_world s2 []
           (promises w ++ [Fulfilled (VArray [new_oid; VWriteStream stream])])
           (trace w ++
              [EQuery create_query;
               EQuery (open_query new_oid (VData (DNum LargeObjectManager.WRITE)))]) /\
       _largeObject stream = Build_LargeObject new_oid fd /\
       highWaterMark stream = js_or bufferSize (VData (DNum 16384))).
Proof.
  intros Hp. split.
  - intros oid fd size s1 s2 Hoid Hopen Hsize.
    unfold LargeObjectManager.openAndReadableStreamAsync.
    rewrite promiseFromCallback_returns.
    2: { intros callback w'. unfold LargeObjectManager.openAndReadableStream.
         cbn [LargeObjectManager.shift_args]. unfold LargeObjectManager.open.
         by rewrite Hoid. }
    cbn [fst].
    destruct (openAndReadableStream_wires respond (with_promise Pending w) oid
                (AValue bufferSize)
                (Some (promise_callback (length (promises w))
                         (options_twoArgs (VData (DObject [("twoArgs", DBool true)])))))
                bufferSize _ s1 s2 fd size Hp Hoid eq_refl Hopen Hsize)
      as (stream & Hrun & Hobj & Hhwm & _).
    exists stream. rewrite Hrun. split; [| by split].
    by rewrite (run_promise_callback _ (promises w)) by reflexivity.
  - intros new_oid fd s1 s2 Hcreate Hoid Hopen.
    unfold LargeObjectManager.createAndWritableStreamAsync.
    rewrite promiseFromCallback_returns.
    2: { intros callback w'. reflexivity. }
    cbn [fst].
    destruct (createAndWritableStream_wires respond (with_promise Pending w)
                (AValue bufferSize)
                (Some (promise_callback (length (promises w))
                         (options_twoArgs (VData (DObject [("twoArgs", DBool true)])))))
                bufferSize _ s1 s2 new_oid fd Hp eq_refl Hcreate Hoid Hopen)
      as (stream & Hrun & Hobj & Hhwm & _).
    exists stream. rewrite Hrun. split; [| by split].
    by rewrite (run_promise_callback _ (promises w)) by reflexivity.
Qed.

Lemma exec_seq (a b : act) w :
  exec (seq a b) w
  = match exec a w with
    | (w', Normal _) => exec b w'
    | (w', Thrown e) => (w', Thrown e)
    end.
Proof.
  revert w. induction a as [| e | q cb k IH | c k IH | n v k IH | m v k IH
                            | p v k IH | p e k IH]; intros w; cbn; auto.
Qed.

Lemma exec_promise_callback w (p : nat) (twoArgs error arg1 arg2 : value) :
  exec (promise_callback p twoArgs error arg1 arg2) w
  = (settle p (settled_by twoArgs error arg1 arg2) w, Normal tt).
Proof.
  unfold promise_callback, settled_by.
  destruct (truthy error); [| destruct (truthy twoArgs)]; reflexivity.
Qed.

Lemma settled_by_not_pending (twoArgs error arg1 arg2 : value) :
  settled_by twoArgs error arg1 arg2 <> Pending.
Proof.
  unfold settled_by.
  destruct (truthy error); [| destruct (truthy twoArgs)]; discriminate.
Qed.

(** X20. A promise made by [promiseFromCallback] is settled by the first
    call of its callback: when [fn] calls the callback a second time, with
    whatever arguments, the promise is what the first call made it. *)
Theorem promise_settles_once {Self : Type} (fn first : Self -> Callback -> act)
    (self : Self) (opts : value) w (e1 a1 b1 e2 a2 b2 : value) :
  (forall callback, first self callback = callback e1 a1 b1) ->
  (forall callback, fn self callback = seq (callback e1 a1 b1) (callback e2 a2 b2)) ->
  promiseFromCallback fn self opts w = promiseFromCallback first self opts w /\
  promises (fst (promiseFromCallback fn self opts w))
  = promises w ++ [settled_by (options_twoArgs opts) e1 a1 b1].
Proof.
  intros Hfirst Hfn.
  set (p := length (promises w)).
  set (st1 := settled_by (options_twoArgs opts) e1 a1 b1).
  set (w1 := Build_world (server w) (pending w) (promises w ++ [st1]) (trace w)).
  assert (H1 : settle p st1 (with_promise Pending w) = w1)
    by (apply settle_pending; reflexivity).
  assert (Hone : promiseFromCallback first self opts w = (w1, Normal p)).
  { unfold promiseFromCallback, new_Promise. rewrite Hfirst.
    fold p. fold (with_promise Pending w).
    change (if truthy e1 then Reject p e1 Ret
            else if truthy (options_twoArgs opts)
                 then Resolve p (VArray [a1; b1]) Ret else Resolve p a1 Ret)
      with (promise_callback p (options_twoArgs opts) e1 a1 b1).
    rewrite exec_promise_callback. fold st1. by rewrite H1. }
  assert (Htwo : promiseFromCallback fn self opts w = (w1, Normal p)).
  { unfold promiseFromCallback, new_Promise. rewrite Hfn.
    fold p. fold (with_promise Pending w).
    change (seq (if truthy e1 then Reject p e1 Ret
                 else if truthy (options_twoArgs opts)
                      then Resolve p (VArray [a1; b1]) Ret else Resolve p a1 Ret)
                (if truthy e2 then Reject p e2 Ret
                 else if truthy (options_twoArgs opts)
                      then Resolve p (VArray [a2; b2]) Ret else Resolve p a2 Ret))
      with (seq (promise_callback p (options_twoArgs opts) e1 a1 b1)
                (promise_callback p (options_twoArgs opts) e2 a2 b2)).
    rewrite exec_seq, !exec_promise_callback. fold st1. rewrite H1.
    rewrite (settle_settled w1 p st1).
    - reflexivity.
    - unfold w1, p; cbn [promises]. by apply list_lookup_middle.
    - apply settled_by_not_pending. }
  rewrite Htwo, Hone. split; reflexivity.
Qed.

End PromiseVariants.

(** ** The adapter for pg-promise *)

Section PgPromise.
Context {DB : Type}.
Implicit Types (w : world DB).

Lemma exec_catch (a : act) (h : value -> act) w :
  exec (catch_ a h) w
  = match exec a w with
    | (w', Normal _) => (w', Normal tt)
    | (w', Thrown e) => exec (h e) w'
    end.
Proof.
  revert w. induction a as [| e | q cb k IH | c k IH | n v k IH | m v k IH
                            | p v k IH | p e k IH]; intros w; cbn; auto.
Qed.


(** X22. When the query callback throws while it handles a successful
    answer, the pg-promise adapter catches what it threw and calls the same
    callback a second time, now with that as the error; what the first call
    did before it threw stays done. *)
Theorem pgPromiseAdapter_calls_twice_on_throw w (callback : value -> value -> act)
    (result : datum) (rows : datum) (e : value) (w1 : world DB) :
  LargeObjectManager.destructure_rows result = Normal rows ->
  exec (callback null (VData (DObject [("rows", rows)]))) w = (w1, Thrown e) ->
  exec (LargeObjectManager.pgPromiseAdapter callback (LargeObjectManager.TxFulfilled result)) w
  = exec (callback e undefined) w1.
Proof.
  intros Hrows Hcb. unfold LargeObjectManager.pgPromiseAdapter.
  by rewrite Hrows, exec_catch, Hcb.
Qed.

End PgPromise.

(** ** The operations behind either adapter

    The same operation and the same answer of the database, with the
    manager made from a [pg] client ([perform], [perform_async]) and from a
    pg-promise transaction ([perform_pgPromise], [perform_async_pgPromise]). *)

Section Adapters.
Context {DB : Type}.
Implicit Types (w : world DB) (respond : DB -> query -> DB * (datum * datum)).

Lemma perform_query_none respond w q s' err result :
  pending w = [] ->
  respond (server w) q = (s', (err, result)) ->
  perform respond (Query q None Ret) w
  = Some (if truthy err then log (EUncaught err) (answered w s' q)
          else answered w s' q).
Proof.
  intros Hp Hr. unfold perform. rewrite run_callback_query.
  unfold tick, enqueue, answered. cbn [pending server promises trace].
  rewrite Hp. cbn [app]. by rewrite Hr.
Qed.

Lemma tick_pgPromise_enqueue respond w q cb s' err result :
  pending w = [] ->
  respond (server w) q = (s', (err, result)) ->
  tick_pgPromise respond (enqueue q cb w)
  = Some (run_callback
            (LargeObjectManager.pgPromiseAdapter (adapter_callback cb)
               (tx_answer_of err result))
            (Build_world s' [] (promises w) (trace w ++ [EQuery q]))).
Proof.
  intros Hp Hr. unfold tick_pgPromise, enqueue.
  cbn [pending server promises trace]. rewrite Hp. cbn [app]. by rewrite Hr.
Qed.

Lemma perform_pgPromise_query respond w q cb s' err result :
  pending w = [] ->
  respond (server w) q = (s', (err, result)) ->
  perform_pgPromise respond (Query q cb Ret) w
  = Some (run_callback
            (LargeObjectManager.pgPromiseAdapter (adapter_callback cb)
               (tx_answer_of err result))
            (answered w s' q)).
Proof.
  intros Hp Hr. unfold perform_pgPromise. rewrite run_callback_query.
  by erewrite tick_pgPromise_enqueue by eassumption.
Qed.

(** Reading a property or an element throws nothing but a TypeError. *)
Lemma get_prop_thrown (v : value) prop e : get_prop v prop = Thrown e -> e = TypeError.
Proof.
  destruct v as [d | | | |]; [destruct d |..]; cbn; intros H;
    first [discriminate | by injection H].
Qed.

Lemma get_index_thrown (v : value) i e : get_index v i = Thrown e -> e = TypeError.
Proof.
  destruct v as [d | | | |]; [destruct d |..]; cbn; intros H;
    first [discriminate | by injection H].
Qed.

Lemma first_row_col_thrown (result : value) col e :
  first_row_col result col = Thrown e -> e = TypeError.
Proof.
  unfold first_row_col.
  destruct (get_prop result "rows") as [rows | e1] eqn:H1.
  - destruct (get_index rows 0) as [row | e2] eqn:H2.
    + apply get_prop_thrown.
    + intros [= <-]. by apply get_index_thrown in H2.
  - intros [= <-]. by apply get_prop_thrown in H1.
Qed.

(** The result the adapter builds reads like the result it was given. *)
Lemma first_row_col_rebuilt (result rows : datum) col :
  LargeObjectManager.destructure_rows result = Normal rows ->
  first_row_col (VData (DObject [("rows", rows)])) col
  = first_row_col (VData result) col.
Proof.
  destruct result; cbn [LargeObjectManager.destructure_rows];
    intros H; first [discriminate | injection H as <-]; reflexivity.
Qed.

Lemma destructure_rows_thrown (result : datum) e :
  LargeObjectManager.destructure_rows result = Thrown e ->
  e = TypeError /\ forall col, first_row_col (VData result) col = Thrown TypeError.
Proof.
  destruct result; cbn [LargeObjectManager.destructure_rows];
    intros H; first [discriminate | injection H as <-]; by split.
Qed.

Lemma destructure_rows_readable (result : datum) col v :
  first_row_col (VData result) col = Normal v ->
  exists rows, LargeObjectManager.destructure_rows result = Normal rows.
Proof.
  destruct result; cbn; intros H; first [discriminate | by eexists].
Qed.

(** No query callback: the adapter calls [undefined]. *)
Lemma adapter_no_callback (answer : LargeObjectManager.tx_answer) w :
  run_callback (LargeObjectManager.pgPromiseAdapter (adapter_callback None) answer) w
  = log (EUncaught TypeError) w.
Proof.
  destruct answer as [result | error]; [| reflexivity].
  unfold LargeObjectManager.pgPromiseAdapter.
  by destruct (LargeObjectManager.destructure_rows result) as [rows | e].
Qed.

(** An error of the database reaches the query callback as it is. *)
Lemma adapter_error (h : datum -> datum -> act) (err result : datum) :
  truthy err = true ->
  LargeObjectManager.pgPromiseAdapter (adapter_callback (Some h))
    (tx_answer_of err result)
  = h err DUndefined.
Proof. intros He. unfold tx_answer_of. by rewrite He. Qed.

(** A success whose result the query callback [h] cannot read: [h] throws,
    and the adapter calls it again with what it threw. *)
Lemma adapter_unreadable (h : datum -> datum -> act) col (err result : datum) e :
  truthy err = false ->
  first_row_col result col = Thrown e ->
  (forall r : datum, first_row_col r col = Thrown TypeError ->
                     h DNull r = Throw TypeError) ->
  LargeObjectManager.pgPromiseAdapter (adapter_callback (Some h))
    (tx_answer_of err result)
  = h (DError "TypeError") DUndefined.
Proof.
  intros He Hrow Hh. pose proof (first_row_col_thrown _ _ _ Hrow) as ->.
  unfold tx_answer_of. rewrite He. unfold LargeObjectManager.pgPromiseAdapter.
  destruct (LargeObjectManager.destructure_rows result) as [rows | e'] eqn:Hd.
  - cbn [adapter_callback as_datum null]. rewrite Hh; [reflexivity |].
    by rewrite (first_row_col_rebuilt _ _ _ Hd).
  - by destruct (destructure_rows_thrown _ _ Hd) as [-> _].
Qed.

(** A success the query callback [h] reads: the adapter calls [h] with the
    rows, and with what [h] throws, if it throws. *)
Lemma adapter_readable (h : datum -> datum -> act) col (err result : datum) v :
  truthy err = false ->
  first_row_col result col = Normal v ->
  exists rebuilt : datum,
    first_row_col rebuilt col = Normal v /\
    LargeObjectManager.pgPromiseAdapter (adapter_callback (Some h))
      (tx_answer_of err result)
    = catch_ (h DNull rebuilt) (fun error => h (as_datum error) DUndefined).
Proof.
  intros He Hrow. unfold tx_answer_of. rewrite He.
  destruct (destructure_rows_readable _ _ _ Hrow) as [rows Hd].
  exists (DObject [("rows", rows)]). split.
  - by rewrite (first_row_col_rebuilt _ _ _ Hd).
  - unfold LargeObjectManager.pgPromiseAdapter. by rewrite Hd.
Qed.

Lemma first_col_unreadable col (callback : Callback) (r : datum) :
  first_row_col r col = Thrown TypeError ->
  LargeObject.first_col col callback DNull r = Throw TypeError.
Proof. intros H. unfold LargeObject.first_col. cbn [truthy]. by rewrite H. Qed.

(** X3. close, write, seek, truncate and unlink called without a callback
    send their statement with [undefined] for the query callback.  With a
    [pg] client a success then passes in silence and an error of the
    database surfaces uncaught; the pg-promise adapter calls the missing
    callback, so a TypeError surfaces uncaught whatever the answer was. *)
Theorem missing_callback_by_adapter respond w (this : LargeObject)
    (oid buffer length position ref : value) (s' : DB) (err result : datum) :
  pending w = [] ->
  truthy oid = true ->
  (forall q, respond (server w) q = (s', (err, result))) ->
  let answers (a : act) (q : query) :=
    perform respond a w
    = Some (if truthy err then log (EUncaught err) (answered w s' q)
            else answered w s' q) /\
    perform_pgPromise respond a w
    = Some (log (EUncaught TypeError) (answered w s' q)) in
  answers (LargeObject.close this None) (close_query (_fd this)) /\
  answers (LargeObject.write this buffer None) (write_query (_fd this) buffer) /\
  answers (LargeObject.seek this position ref None)
          (Build_query "npg_lo_lseek64" "SELECT lo_lseek64($1, $2, $3) as location"
                       [_fd this; position; ref]) /\
  answers (LargeObject.truncate this length None)
          (Build_query "npg_lo_truncate64" "SELECT lo_truncate64($1, $2)"
                       [_fd this; length]) /\
  answers (LargeObjectManager.unlink oid None) (unlink_query oid).
Proof.
  intros Hp Hoid Hr answers. subst answers. cbv beta.
  unfold LargeObject.close, LargeObject.write, LargeObject.seek,
    LargeObject.truncate, LargeObjectManager.unlink.
  rewrite Hoid. cbn [negb LargeObject.err_only].
  repeat split;
    first [ by erewrite perform_query_none; [| exact Hp | apply Hr]
          | by erewrite perform_pgPromise_query, adapter_no_callback;
              [| exact Hp | apply Hr] ].
Qed.

(** X4. When the answer is a success whose result cannot be read (no first
    row, or no result at all), open, create, read, seek, tell and size
    throw a TypeError inside the query callback.  With a [pg] client it
    surfaces uncaught and the caller's callback is never called; the
    pg-promise adapter catches it, and the caller's callback is called with
    the TypeError as its error. *)
Theorem unreadable_result_by_adapter respond w (this : LargeObject)
    (oid mode length position ref : value) (callback : Callback)
    (s' : DB) (err result : datum) (e : value) :
  pending w = [] ->
  truthy oid = true ->
  (forall q, respond (server w) q = (s', (err, result))) ->
  truthy err = false ->
  (forall col, first_row_col result col = Thrown e) ->
  let breaks (a : act) (q : query) :=
    perform respond a w = Some (log (EUncaught TypeError) (answered w s' q)) /\
    perform_pgPromise respond a w
    = Some (run_callback (callback TypeError undefined undefined)
              (answered w s' q)) in
  e = TypeError /\
  breaks (LargeObjectManager.open oid mode callback) (open_query oid mode) /\
  breaks (LargeObjectManager.create callback) create_query /\
  breaks (LargeObject.read this length callback)
         (Build_query "npg_loread" "SELECT loread($1, $2) as data" [_fd this; length]) /\
  breaks (LargeObject.seek this position ref (Some callback))
         (Build_query "npg_lo_lseek64" "SELECT lo_lseek64($1, $2, $3) as location"
                      [_fd this; position; ref]) /\
  breaks (LargeObject.tell this callback) (tell_query (_fd this)) /\
  breaks (LargeObject.size this callback) (size_query (_fd this)).
Proof.
  intros Hp Hoid Hr He Hrow breaks. subst breaks. cbv beta.
  pose proof (first_row_col_thrown _ _ _ (Hrow "fd")) as ->.
  split; [reflexivity |].
  unfold LargeObjectManager.open, LargeObjectManager.create, LargeObject.read,
    LargeObject.seek, LargeObject.tell, LargeObject.size.
  rewrite Hoid. cbn [negb].
  repeat split.
  all: first
    [ by erewrite perform_query; [| exact Hp | apply Hr];
         cbv beta; rewrite ?(first_col_throws _ _ _ _ TypeError He (Hrow _));
         rewrite ?He, ?Hrow
    | erewrite perform_pgPromise_query; [| exact Hp | apply Hr];
      erewrite adapter_unreadable;
        [reflexivity | exact He | apply Hrow
         | first [ apply first_col_unreadable
                 | by intros r Hthrown; cbn [truthy]; rewrite Hthrown ] ] ].
Qed.

(** X6. When the database answers the read of a pull with an error, the
    stream pushes nothing and emits ['error'] with that error, with either
    adapter.  When somebody listens for ['error'], the listeners run and
    that is all; when nobody does, the emit throws the error (wrapped when
    it is no error object), which surfaces uncaught. *)
Theorem read_error_is_emitted respond w (this : stream_obj) (length : Z)
    (s' : DB) (err result : datum) :
  0 < length ->
  pending w = [] ->
  respond (server w) (read_query (_fd (_largeObject this)) length)
    = (s', (err, result)) ->
  truthy err = true ->
  let sent := trace w ++ [EQuery (read_query (_fd (_largeObject this)) length)] in
  let outcome :=
    if has_listener this "error"
    then run_callback (dispatch "error" (listeners this))
           (Build_world s' [] (promises w) (sent ++ [EEmit "error" (VData err)]))
    else Build_world s' [] (promises w)
           (sent ++ [EUncaught (unhandled_error (VData err))]) in
  perform respond (ReadStream._read this length) w = Some outcome /\
  perform_pgPromise respond (ReadStream._read this length) w = Some outcome.
Proof.
  intros Hpos Hp Hr He sent outcome.
  assert (Hemit : run_callback (emit this "error" (VData err))
                    (answered w s' (read_query (_fd (_largeObject this)) length))
                  = outcome).
  { subst outcome sent. unfold emit, answered.
    destruct (has_listener this "error"); reflexivity. }
  split.
  - rewrite (perform_read respond w this length s' err result Hpos Hp Hr).
    rewrite first_col_error by exact He. by rewrite He, Hemit.
  - unfold ReadStream._read. rewrite (proj2 (Z.leb_gt length 0) Hpos).
    unfold LargeObject.read. fold (read_query (_fd (_largeObject this)) length).
    erewrite perform_pgPromise_query by eassumption.
    rewrite adapter_error by exact He.
    rewrite first_col_error by exact He. by rewrite He, Hemit.
Qed.

(** X7. When the answer to a pull has no first row, the stream pushes
    nothing and does not end.  With a [pg] client it emits nothing either:
    the TypeError of reading the row surfaces uncaught.  The pg-promise
    adapter catches the TypeError and calls the read callback with it, so
    the stream emits ['error'] with the TypeError. *)
Theorem read_without_row_by_adapter respond w (this : stream_obj) (length : Z)
    (s' : DB) (err result : datum) (e : value) :
  0 < length ->
  pending w = [] ->
  respond (server w) (read_query (_fd (_largeObject this)) length)
    = (s', (err, result)) ->
  truthy err = false ->
  first_row_col result "data" = Thrown e ->
  let sent := trace w ++ [EQuery (read_query (_fd (_largeObject this)) length)] in
  perform respond (ReadStream._read this length) w
  = Some (Build_world s' [] (promises w) (sent ++ [EUncaught TypeError])) /\
  perform_pgPromise respond (ReadStream._read this length) w
  = Some (run_callback (emit this "error" TypeError)
            (Build_world s' [] (promises w) sent)).
Proof.
  intros Hpos Hp Hr He Hd sent. subst sent.
  pose proof (first_row_col_thrown _ _ _ Hd) as ->.
  split.
  - rewrite (perform_read respond w this length s' err result Hpos Hp Hr).
    rewrite (first_col_throws _ _ _ _ TypeError He Hd), run_callback_throw.
    unfold answered. by rewrite log_build.
  - unfold ReadStream._read. rewrite (proj2 (Z.leb_gt length 0) Hpos).
    unfold LargeObject.read. fold (read_query (_fd (_largeObject this)) length).
    erewrite perform_pgPromise_query by eassumption.
    erewrite adapter_unreadable;
      [reflexivity | exact He | exact Hd | apply first_col_unreadable].
Qed.

(** X8. When the first row of the answer holds [null] or [undefined] as
    [data], the stream pushes that value (a [null] ends the stream) and
    then fails on reading its length.  With a [pg] client the TypeError
    surfaces uncaught; the pg-promise adapter catches it and calls the read
    callback with it, so after the push the stream emits ['error'] with the
    TypeError. *)
Theorem read_null_data_by_adapter respond w (this : stream_obj) (length : Z)
    (s' : DB) (err result : datum) (data : datum) :
  0 < length ->
  pending w = [] ->
  respond (server w) (read_query (_fd (_largeObject this)) length)
    = (s', (err, result)) ->
  truthy err = false ->
  first_row_col result "data" = Normal (VData data) ->
  data = DNull \/ data = DUndefined ->
  let pushed := trace w ++ [EQuery (read_query (_fd (_largeObject this)) length);
                            EPush (VData data)] in
  perform respond (ReadStream._read this length) w
  = Some (Build_world s' [] (promises w) (pushed ++ [EUncaught TypeError])) /\
  perform_pgPromise respond (ReadStream._read this length) w
  = Some (run_callback (emit this "error" TypeError)
            (Build_world s' [] (promises w) pushed)).
Proof.
  intros Hpos Hp Hr He Hd Hnull pushed. subst pushed.
  split.
  - rewrite (perform_read respond w this length s' err result Hpos Hp Hr).
    rewrite (first_col_value _ _ _ _ _ He Hd).
    destruct Hnull as [-> | ->]; unfold run_callback, answered; cbn;
      rewrite !log_build, <- !app_assoc; reflexivity.
  - unfold ReadStream._read. rewrite (proj2 (Z.leb_gt length 0) Hpos).
    unfold LargeObject.read. fold (read_query (_fd (_largeObject this)) length).
    erewrite perform_pgPromise_query by eassumption.
    destruct (adapter_readable
                (LargeObject.first_col "data" (fun error data _ =>
                   if truthy error then emit this "error" error
                   else Push data
                          (match get_prop data "length" with
                           | Thrown e => Throw e
                           | Normal len =>
                               if js_lt len length then Push null Ret else Ret
                           end)))
                "data" err result _ He Hd) as (rebuilt & Hre & ->).
    unfold LargeObject.first_col at 1. cbn [truthy]. rewrite Hre.
    unfold answered.
    destruct Hnull as [-> | ->]; cbn [truthy null get_prop catch_ as_datum TypeError];
      unfold run_callback; cbn [exec]; rewrite log_build, <- app_assoc;
      reflexivity.
Qed.

(** X14. When the create of [createAndWritableStream] answers with a falsy
    oid, the open that follows throws ["Illegal Argument"] inside the query
    callback and nothing is opened.  With a [pg] client the error surfaces
    uncaught and the callback is never called; the pg-promise adapter
    catches it, and the callback is called with the error. *)
Theorem createAndWritableStream_falsy_oid respond w (bufferSize : arg)
    (cb0 : option Callback) (s' : DB) (new_oid : value) :
  pending w = [] ->
  succeeds respond (server w) create_query "oid" s' new_oid ->
  truthy new_oid = false ->
  perform respond (LargeObjectManager.createAndWritableStream bufferSize cb0) w
  = Some (log (EUncaught IllegalArgument) (answered w s' create_query)) /\
  perform_pgPromise respond
    (LargeObjectManager.createAndWritableStream bufferSize cb0) w
  = Some (run_callback
            (call (snd (LargeObjectManager.shift_args bufferSize cb0))
               IllegalArgument undefined undefined)
            (answered w s' create_query)).
Proof.
  intros Hp (e1 & r1 & Hr1 & He1 & Hnew) Hoid.
  unfold LargeObjectManager.createAndWritableStream.
  destruct (LargeObjectManager.shift_args bufferSize cb0) as [bs cb].
  unfold LargeObjectManager.create.
  change (Build_query "npg_lo_creat" "SELECT lo_creat($1) AS oid"
            [VData (DNum LargeObjectManager.READWRITE)]) with create_query.
  split.
  - erewrite perform_query by eassumption.
    cbv beta. rewrite He1, Hnew. cbn [truthy null].
    unfold LargeObjectManager.open. by rewrite Hoid.
  - erewrite perform_pgPromise_query by eassumption.
    match goal with
    | |- context [adapter_callback (Some ?h)] =>
        destruct (adapter_readable h "oid" e1 r1 new_oid He1 Hnew)
          as (rebuilt & Hre & ->)
    end.
    cbv beta. cbn [truthy null]. rewrite Hre. cbn [truthy null].
    unfold LargeObjectManager.open. rewrite Hoid. reflexivity.
Qed.

(** X17. When the answer is a success whose result cannot be read (no first
    row), the query callback of [openAsync], [createAsync], [readAsync],
    [tellAsync] and [sizeAsync] throws a TypeError.  With a [pg] client the
    promise is never settled: it stays pending, and the TypeError surfaces
    uncaught outside the promise.  The pg-promise adapter catches the
    TypeError and the promise is rejected with it. *)
Theorem unreadable_result_promise_by_adapter respond w (this : LargeObject)
    (oid mode length : value) (s' : DB) (err result : datum) (e : value) :
  pending w = [] ->
  truthy oid = true ->
  (forall q, respond (server w) q = (s', (err, result))) ->
  truthy err = false ->
  (forall col, first_row_col result col = Thrown e) ->
  let ends (call : world DB -> world DB * completion nat) (q : query) :=
    perform_async respond call w
    = (Some (Build_world s' [] (promises w ++ [Pending])
               (trace w ++ [EQuery q; EUncaught TypeError])),
       Normal (List.length (promises w))) /\
    perform_async_pgPromise respond call w
    = (Some (Build_world s' [] (promises w ++ [Rejected TypeError])
               (trace w ++ [EQuery q])),
       Normal (List.length (promises w))) in
  ends (LargeObjectManager.openAsync oid mode) (open_query oid mode) /\
  ends LargeObjectManager.createAsync create_query /\
  ends (LargeObject.readAsync this length)
       (Build_query "npg_loread" "SELECT loread($1, $2) as data" [_fd this; length]) /\
  ends (LargeObject.tellAsync this) (tell_query (_fd this)) /\
  ends (LargeObject.sizeAsync this) (size_query (_fd this)).
Proof.
  intros Hp Hoid Hr He Hrow ends.
  pose proof (first_row_col_thrown _ _ _ (Hrow "fd")) as ->.
  assert (Hends : forall {Self : Type} (fn : Self -> Callback -> act) (self : Self)
                    (q : query) (handler : Callback -> datum -> datum -> act)
                    (col : string),
             (forall callback, fn self callback = Query q (Some (handler callback)) Ret) ->
             (forall callback (r : datum),
                first_row_col r col = Thrown TypeError ->
                handler callback DNull r = Throw TypeError) ->
             (forall callback r,
                handler callback err r = handler callback DNull r) ->
             (forall callback,
                handler callback (DError "TypeError") DUndefined
                = callback TypeError undefined undefined) ->
             ends (promiseFromCallback fn self undefined) q).
  { intros Self fn self q handler col Hfn Hthrow Hsame Hcatch. subst ends. cbv beta.
    destruct (promiseFromCallback_query fn self undefined q handler
                respond w s' err result Hfn Hp (Hr q)) as [Hcall Hperf].
    split.
    - rewrite Hperf, Hsame, Hthrow by apply Hrow.
      by rewrite run_callback_throw, log_build, <- app_assoc.
    - unfold perform_async_pgPromise. rewrite Hcall. cbn [fst snd]. f_equal.
      erewrite tick_pgPromise_enqueue; [| exact Hp | apply Hr].
      erewrite adapter_unreadable; [| exact He | apply Hrow | apply Hthrow].
      rewrite Hcatch. f_equal.
      by rewrite (run_promise_callback _ (promises w)). }
  unfold LargeObjectManager.openAsync, LargeObjectManager.createAsync,
    LargeObject.readAsync, LargeObject.tellAsync, LargeObject.sizeAsync.
  split; [| split; [| split; [| split]]].
  - apply (Hends _ (fun (_ : unit) callback => LargeObjectManager.open oid mode callback)
             tt (open_query oid mode)
             (fun (callback : Callback) (err result : datum) =>
                if truthy err then callback err undefined undefined
                else match first_row_col result "fd" with
                     | Thrown e => Throw e
                     | Normal fd =>
                         callback null (VLargeObject (Build_LargeObject oid fd))
                           undefined
                     end) "fd").
    + intros callback. unfold LargeObjectManager.open. by rewrite Hoid.
    + intros callback r Hthrown. cbn [truthy]. by rewrite Hthrown.
    + intros callback r. by rewrite He.
    + reflexivity.
  - apply (Hends _ (fun (_ : unit) callback => LargeObjectManager.create callback)
             tt create_query
             (fun (callback : Callback) (err result : datum) =>
                if truthy err then callback err undefined undefined
                else match first_row_col result "oid" with
                     | Thrown e => Throw e
                     | Normal oid => callback null oid undefined
                     end) "oid").
    + reflexivity.
    + intros callback r Hthrown. cbn [truthy]. by rewrite Hthrown.
    + intros callback r. by rewrite He.
    + reflexivity.
  - apply (Hends _ (fun this callback => LargeObject.read this length callback) this _
             (fun callback => LargeObject.first_col "data" callback) "data");
      [ reflexivity | intros; by apply first_col_unreadable
      | intros callback r; unfold LargeObject.first_col; by rewrite He
      | reflexivity ].
  - apply (Hends _ (fun this callback => LargeObject.tell this callback) this _
             (fun callback => LargeObject.first_col "location" callback) "location");
      [ reflexivity | intros; by apply first_col_unreadable
      | intros callback r; unfold LargeObject.first_col; by rewrite He
      | reflexivity ].
  - apply (Hends _ (fun this callback => LargeObject.size this callback) this _
             (fun callback => LargeObject.first_col "size" callback) "size");
      [ reflexivity | intros; by apply first_col_unreadable
      | intros callback r; unfold LargeObject.first_col; by rewrite He
      | reflexivity ].
Qed.

End Adapters.

(** ** Operations in a row, against the server *)

Section OnTheServer.
Import Pg.
Implicit Types (s : Pg.state) (d : Pg.descriptor) (w : world Pg.state).

Lemma respond_tell_at s fd d :
  descriptors s !! fd = Some d ->
  respond s (tell_query (VData (DNum fd)))
  = (s, (DNull, rows (DObject [("location", DNum (d_pos d))]))).
Proof.
  intros Hd. unfold respond. rewrite run_tell.
  unfold sql_tell, lo_tell64. by rewrite Hd.
Qed.

Lemma respond_seek_set s fd d content (target : Z) :
  open_at s fd d content ->
  0 <= target <= MAX_LARGE_OBJECT_SIZE ->
  respond s (Build_query "npg_lo_lseek64" "SELECT lo_lseek64($1, $2, $3) as location"
               [VData (DNum fd); VData (DNum target);
                VData (DNum LargeObject.SEEK_SET)])
  = (Build_state (objects s)
       (<[fd := Build_descriptor (d_oid d) target]> (descriptors s)),
     (DNull, rows (DObject [("location", DNum target)]))).
Proof.
  intros Hopen Ht. unfold respond. rewrite run_seek. unfold sql_seek.
  change LargeObject.SEEK_SET with 0.
  by rewrite (lo_lseek64_set _ _ _ _ target Hopen Ht).
Qed.

(** X23. On a handle at position [p], [read(n)] gives the bytes of the
    object from [p] on, at most [n] of them, and a [tell] after it reports
    [p] plus the number of bytes read; both come back without error. *)
Theorem read_moves_position w (fd n : Z) (d : Pg.descriptor)
    (content : list Byte.byte) (oid : value) (k : value -> act) :
  pending w = [] ->
  descriptors (server w) !! fd = Some d ->
  objects (server w) !! d_oid d = Some content ->
  let obj := Build_LargeObject oid (VData (DNum fd)) in
  let data := take (Z.to_nat n) (drop (Z.to_nat (d_pos d)) content) in
  let p' := d_pos d + Z.of_nat (length data) in
  ticks respond 2 (run_callback (read_then_tell obj (VData (DNum n)) k) w)
  = run_callback
      (k (VArray [null; VData (DBuffer data); null; VData (DNum p')]))
      (Build_world
         (Build_state (objects (server w))
            (<[fd := Build_descriptor (d_oid d) p']> (descriptors (server w))))
         [] (promises w)
         (trace w ++ [EQuery (read_query (VData (DNum fd)) n);
                      EQuery (tell_query (VData (DNum fd)))])).
Proof.
  intros Hp Hd Ho obj data p'. subst obj.
  unfold read_then_tell, LargeObject.read, LargeObject.tell. cbn [_fd].
  fold (read_query (VData (DNum fd)) n) (tell_query (VData (DNum fd))).
  rewrite run_callback_query. cbn [ticks].
  erewrite tick_enqueue; [| exact Hp | exact (respond_read _ _ _ _ n Hd Ho)].
  rewrite first_col_row, run_callback_query.
  erewrite tick_enqueue; [| reflexivity |].
  2: { apply (respond_tell_at _ fd (Build_descriptor (d_oid d) p')).
       cbn [server descriptors]. apply lookup_insert_eq. }
  rewrite first_col_row. cbn [promises trace assoc String.eqb d_pos].
  by rewrite <- !app_assoc.
Qed.

(** X24. On an open handle, [seek(position, SEEK_SET)] to a position within
    the limit of the server reports [position], and a [tell] after it
    reports [position] too, wherever the handle was before. *)
Theorem seek_set_then_tell w (fd position : Z) (d : Pg.descriptor)
    (content : list Byte.byte) (oid : value) (k : value -> act) :
  pending w = [] ->
  open_at (server w) fd d content ->
  0 <= position <= MAX_LARGE_OBJECT_SIZE ->
  let obj := Build_LargeObject oid (VData (DNum fd)) in
  ticks respond 2
    (run_callback
       (seek_then_tell obj (VData (DNum position)) (VData (DNum LargeObject.SEEK_SET)) k)
       w)
  = run_callback
      (k (VArray [null; VData (DNum position); null; VData (DNum position)]))
      (Build_world
         (Build_state (objects (server w))
            (<[fd := Build_descriptor (d_oid d) position]> (descriptors (server w))))
         [] (promises w)
         (trace w ++
            [EQuery (Build_query "npg_lo_lseek64"
                       "SELECT lo_lseek64($1, $2, $3) as location"
                       [VData (DNum fd); VData (DNum position);
                        VData (DNum LargeObject.SEEK_SET)]);
             EQuery (tell_query (VData (DNum fd)))])).
Proof.
  intros Hp Hopen Hpos obj. subst obj.
  unfold seek_then_tell, LargeObject.seek, LargeObject.tell. cbn [_fd].
  fold (tell_query (VData (DNum fd))).
  rewrite run_callback_query. cbn [ticks].
  erewrite tick_enqueue;
    [| exact Hp | exact (respond_seek_set _ _ _ _ position Hopen Hpos)].
  rewrite first_col_row, run_callback_query.
  erewrite tick_enqueue; [| reflexivity |].
  2: { apply (respond_tell_at _ fd (Build_descriptor (d_oid d) position)).
       cbn [server descriptors]. apply lookup_insert_eq. }
  rewrite first_col_row. cbn [promises trace assoc String.eqb d_pos].
  by rewrite <- !app_assoc.
Qed.

End OnTheServer.

(** * Closed instances *)

Lemma read_nonpositive_throws_witness :
  exec (ReadStream._read Witness.stream 0) Sample.idle
  = (Sample.idle, Thrown (VData (DStr "Illegal Argument"))).
Proof. apply (read_nonpositive_throws Sample.idle Witness.stream 0). lia. Defined.

Lemma read_pull_once_witness :
  tick (Sample.always Witness.row)
    (fst (exec (ReadStream._read Witness.stream 16384) Sample.idle))
  = Some (Build_world tt [] []
            [EQuery (read_query (VData (DNum 0)) 16384);
             EPush (VData (DBuffer Sample.bytes)); EPush null]).
Proof.
  apply (read_pull_once (Sample.always Witness.row) Sample.idle Witness.stream
           16384 tt DNull (Pg.rows Witness.row) Sample.bytes);
    [lia | reflexivity | reflexivity | reflexivity | reflexivity].
Defined.

Lemma write_forwards_chunk_witness :
  tick (Sample.always Witness.row)
    (fst (exec (WriteStream._write Witness.stream (VData (DBuffer Sample.bytes))
                  undefined Sample.report) Sample.idle))
  = Some (run_callback (Sample.report null undefined undefined)
            (Build_world tt [] []
               [EQuery (write_query (VData (DNum 0)) (VData (DBuffer Sample.bytes)))])).
Proof.
  apply (write_forwards_chunk (Sample.always Witness.row) Sample.idle
           Witness.stream (VData (DBuffer Sample.bytes)) undefined Sample.report
           tt DNull (Pg.rows Witness.row));
    reflexivity.
Defined.

Lemma create_readwrite_oid_only_witness :
  tick (Sample.always Witness.row)
    (fst (exec (LargeObjectManager.create Sample.report) Sample.idle))
  = Some (run_callback (Sample.report null (VData (DNum 16385)) undefined)
            (Build_world tt [] [] [EQuery create_query])).
Proof.
  apply (create_readwrite_oid_only (Sample.always Witness.row) Sample.idle
           Sample.report tt DNull (Pg.rows Witness.row) (VData (DNum 16385)));
    reflexivity.
Defined.

Lemma async_falsy_oid_rejects_witness :
  LargeObjectManager.openAsync (VData (DNum 0))
    (VData (DNum LargeObjectManager.READ)) Sample.idle
  = (Build_world tt [] [Rejected IllegalArgument] [], Normal 0%nat).
Proof.
  apply (async_falsy_oid_rejects Sample.idle (VData (DNum 0))
           (VData (DNum LargeObjectManager.READ))).
  reflexivity.
Defined.

Lemma size_keeps_position_witness :
  ticks Pg.respond 3
    (run_callback
       (tell_size_tell (Build_LargeObject (VData (DNum 16385)) (VData (DNum 0)))
          (fun v => ConsoleError "result" v Ret))
       (Sample.pg_idle 2))
  = run_callback
      (ConsoleError "result"
         (VArray [null; VData (DNum 2); null; VData (DNum 8); null; VData (DNum 2)])
         Ret)
      (Build_world (Sample.pg 2) [] []
         [EQuery (tell_query (VData (DNum 0))); EQuery (size_query (VData (DNum 0)));
          EQuery (tell_query (VData (DNum 0)))]).
Proof.
  apply (size_keeps_position (Sample.pg_idle 2) 0 (Pg.Build_descriptor 16385 2)
           Sample.testBuf (VData (DNum 16385)) (fun v => ConsoleError "result" v Ret)).
  - reflexivity.
  - unfold open_at. repeat split; try reflexivity; vm_compute; discriminate.
Defined.

Lemma auto_close_failure_only_warns_witness :
  exists stream,
    ticks (Sample.always Witness.row) 2
      (run_callback
         (LargeObjectManager.openAndReadableStream (VData (DNum 16385))
            (AFunction Sample.report) None) Sample.idle)
    = run_callback (Sample.report null (VData (DNum 3)) (VReadStream stream))
        (Build_world tt [] []
           ([] ++ [EQuery (open_query (VData (DNum 16385))
                             (VData (DNum LargeObjectManager.READ)));
                   EQuery (size_query (VData (DNum 0)))])) /\
    _largeObject stream = Build_LargeObject (VData (DNum 16385)) (VData (DNum 0)) /\
    closes_quietly_on (DB := unit) "end" stream.
Proof.
  apply (proj1 (auto_close_failure_only_warns (Sample.always Witness.row)
                  Sample.idle (AFunction Sample.report) None undefined
                  Sample.report eq_refl eq_refl)
           (VData (DNum 16385)) (VData (DNum 0)) (VData (DNum 3)) tt tt).
  - reflexivity.
  - exists DNull, (Pg.rows Witness.row).
    split; [reflexivity | split; reflexivity].
  - exists DNull, (Pg.rows Witness.row).
    split; [reflexivity | split; reflexivity].
Defined.

(** ** Closed instances of the further properties *)

Lemma database_error_passes_through_witness :
  perform Cases.failing (LargeObject.tell Sample.handle Sample.report) Sample.idle
  = Some (run_callback (Sample.report (VData Cases.boom) undefined undefined)
            (answered Sample.idle tt (tell_query (VData (DNum 0))))).
Proof.
  apply (database_error_passes_through Cases.failing Sample.idle Sample.handle
           (VData (DNum 16385)) (VData (DNum LargeObjectManager.READ))
           (VData (DNum 2)) (VData (DNum 0)) (VData (DNum LargeObject.SEEK_SET))
           Sample.report tt Cases.boom DUndefined);
    reflexivity.
Defined.

Lemma err_only_operations_report_err_witness :
  perform (Sample.always Witness.row)
    (LargeObject.close Sample.handle (Some Sample.report)) Sample.idle
  = Some (run_callback (Sample.report null undefined undefined)
            (answered Sample.idle tt (close_query (VData (DNum 0))))).
Proof.
  apply (err_only_operations_report_err (Sample.always Witness.row) Sample.idle
           Sample.handle (VData (DNum 16385)) (VData (DBuffer Sample.bytes))
           (VData (DNum 2)) Sample.report tt DNull (Pg.rows Witness.row));
    reflexivity.
Defined.

Lemma open_hands_over_handle_witness :
  perform (Sample.always Witness.row)
    (LargeObjectManager.open (VData (DNum 16385))
       (VData (DNum LargeObjectManager.READ)) Sample.report) Sample.idle
  = Some (run_callback
            (Sample.report null (VLargeObject Sample.handle) undefined)
            (answered Sample.idle tt
               (open_query (VData (DNum 16385))
                  (VData (DNum LargeObjectManager.READ))))).
Proof.
  apply (open_hands_over_handle (Sample.always Witness.row) Sample.idle
           (VData (DNum 16385)) (VData (DNum LargeObjectManager.READ))
           (VData (DNum 0)) Sample.report tt DNull (Pg.rows Witness.row));
    reflexivity.
Defined.

Lemma openAndReadableStream_falsy_oid_witness :
  exec (LargeObjectManager.openAndReadableStream (VData (DNum 0))
          (AFunction Sample.report) None) Sample.idle
  = (Sample.idle, Thrown IllegalArgument).
Proof.
  apply (openAndReadableStream_falsy_oid Sample.idle (VData (DNum 0))
           (AFunction Sample.report) None).
  reflexivity.
Defined.

Lemma openAndReadableStream_open_fails_witness :
  perform Cases.failing
    (LargeObjectManager.openAndReadableStream (VData (DNum 16385))
       (AFunction Sample.report) None) Sample.idle
  = Some (run_callback (Sample.report (VData Cases.boom) undefined undefined)
            (answered Sample.idle tt
               (open_query (VData (DNum 16385))
                  (VData (DNum LargeObjectManager.READ))))).
Proof.
  apply (openAndReadableStream_open_fails Cases.failing Sample.idle
           (VData (DNum 16385)) (AFunction Sample.report) None undefined
           Sample.report tt Cases.boom DUndefined);
    reflexivity.
Defined.

Lemma openAndReadableStream_size_fails_witness :
  ticks (Cases.failing_at "npg_size" Witness.row) 2
    (run_callback
       (LargeObjectManager.openAndReadableStream (VData (DNum 16385))
          (AFunction Sample.report) None) Sample.idle)
  = run_callback (Sample.report (VData Cases.boom) undefined undefined)
      (Build_world tt [] []
         ([] ++ [EQuery (open_query (VData (DNum 16385))
                           (VData (DNum LargeObjectManager.READ)));
                 EQuery (size_query (VData (DNum 0)))])).
Proof.
  apply (openAndReadableStream_size_fails (Cases.failing_at "npg_size" Witness.row)
           Sample.idle (VData (DNum 16385)) (AFunction Sample.report) None
           undefined Sample.report tt tt (VData (DNum 0)) Cases.boom DUndefined).
  - reflexivity.
  - reflexivity.
  - reflexivity.
  - exists DNull, (Pg.rows Witness.row).
    split; [reflexivity | split; reflexivity].
  - reflexivity.
  - reflexivity.
Defined.

Lemma createAndWritableStream_create_fails_witness :
  perform Cases.failing
    (LargeObjectManager.createAndWritableStream (AFunction Sample.report) None)
    Sample.idle
  = Some (run_callback (Sample.report (VData Cases.boom) undefined undefined)
            (answered Sample.idle tt create_query)).
Proof.
  apply (createAndWritableStream_create_fails Cases.failing Sample.idle
           (AFunction Sample.report) None undefined Sample.report
           tt Cases.boom DUndefined);
    reflexivity.
Defined.

Lemma createAndWritableStream_open_fails_witness :
  ticks (Cases.failing_at "npg_lo_open" Witness.row) 2
    (run_callback
       (LargeObjectManager.createAndWritableStream (AFunction Sample.report) None)
       Sample.idle)
  = run_callback (Sample.report (VData Cases.boom) undefined undefined)
      (Build_world tt [] []
         ([] ++ [EQuery create_query;
                 EQuery (open_query (VData (DNum 16385))
                           (VData (DNum LargeObjectManager.WRITE)))])).
Proof.
  apply (createAndWritableStream_open_fails
           (Cases.failing_at "npg_lo_open" Witness.row) Sample.idle
           (AFunction Sample.report) None undefined Sample.report tt tt
           (VData (DNum 16385)) Cases.boom DUndefined).
  - reflexivity.
  - reflexivity.
  - exists DNull, (Pg.rows Witness.row).
    split; [reflexivity | split; reflexivity].
  - reflexivity.
  - reflexivity.
  - reflexivity.
Defined.

Lemma openAsync_settles_witness :
  perform_async (Sample.always Witness.row)
    (LargeObjectManager.openAsync (VData (DNum 16385))
       (VData (DNum LargeObjectManager.READ))) Sample.idle
  = (Some (Build_world tt []
             ([] ++ [Fulfilled (VLargeObject Sample.handle)])
             ([] ++ [EQuery (open_query (VData (DNum 16385))
                               (VData (DNum LargeObjectManager.READ)))])),
     Normal 0%nat).
Proof.
  apply (openAsync_settles (Sample.always Witness.row) Sample.idle
           (VData (DNum 16385)) (VData (DNum LargeObjectManager.READ))
           (VData (DNum 0)) tt DNull (Pg.rows Witness.row));
    reflexivity.
Defined.

Lemma value_promises_settle_witness :
  perform_async (Sample.always Witness.row) (LargeObject.sizeAsync Sample.handle)
    Sample.idle
  = (Some (Build_world tt [] ([] ++ [Fulfilled (VData (DNum 3))])
             ([] ++ [EQuery (size_query (VData (DNum 0)))])),
     Normal 0%nat).
Proof.
  apply (value_promises_settle (Sample.always Witness.row) Sample.idle
           Sample.handle (VData (DNum 2)) (VData (DNum 0))
           (VData (DNum LargeObject.SEEK_SET)) tt DNull (Pg.rows Witness.row)
           (fun col =>
              VData (assoc DUndefined col
                       [("fd", DNum 0); ("size", DNum 3); ("oid", DNum 16385);
                        ("data", DBuffer Sample.bytes)])));
    reflexivity.
Defined.

Lemma err_only_promises_settle_witness :
  perform_async Cases.failing (LargeObject.closeAsync Sample.handle) Sample.idle
  = (Some (Build_world tt [] ([] ++ [Rejected (VData Cases.boom)])
             ([] ++ [EQuery (close_query (VData (DNum 0)))])),
     Normal 0%nat).
Proof.
  apply (err_only_promises_settle Cases.failing Sample.idle Sample.handle
           (VData (DNum 16385)) (VData (DBuffer Sample.bytes)) (VData (DNum 2))
           tt Cases.boom DUndefined);
    reflexivity.
Defined.

Lemma stream_promises_fulfil_with_pair_witness :
  exists stream,
    ticks (Sample.always Witness.row) 2
      (fst (LargeObjectManager.openAndReadableStreamAsync (VData (DNum 16385))
              (AValue undefined) Sample.idle))
    = Build_world tt []
        ([] ++ [Fulfilled (VArray [VData (DNum 3); VReadStream stream])])
        ([] ++ [EQuery (open_query (VData (DNum 16385))
                          (VData (DNum LargeObjectManager.READ)));
                EQuery (size_query (VData (DNum 0)))]) /\
    _largeObject stream = Sample.handle /\
    highWaterMark stream = js_or undefined (VData (DNum 16384)).
Proof.
  apply (proj1 (stream_promises_fulfil_with_pair (Sample.always Witness.row)
                  Sample.idle undefined eq_refl)
           (VData (DNum 16385)) (VData (DNum 0)) (VData (DNum 3)) tt tt).
  - reflexivity.
  - exists DNull, (Pg.rows Witness.row).
    split; [reflexivity | split; reflexivity].
  - exists DNull, (Pg.rows Witness.row).
    split; [reflexivity | split; reflexivity].
Defined.

Lemma promise_settles_once_witness :
  promises
    (fst (promiseFromCallback
            (fun (self : value) (callback : Callback) =>
               seq (callback null (VData (DNum 1234)) undefined)
                   (callback (VData Cases.boom) undefined undefined))
            myThisObject undefined Sample.idle))
  = [] ++ [settled_by (options_twoArgs undefined) null (VData (DNum 1234)) undefined].
Proof.
  apply (promise_settles_once
           (fun (self : value) (callback : Callback) =>
              seq (callback null (VData (DNum 1234)) undefined)
                  (callback (VData Cases.boom) undefined undefined))
           (fun (self : value) (callback : Callback) =>
              callback null (VData (DNum 1234)) undefined)
           myThisObject undefined Sample.idle
           null (VData (DNum 1234)) undefined
           (VData Cases.boom) undefined undefined);
    reflexivity.
Defined.


Lemma pgPromiseAdapter_calls_twice_on_throw_witness :
  exec (LargeObjectManager.pgPromiseAdapter Cases.touchy
          (LargeObjectManager.TxFulfilled (Pg.rows Witness.row))) Sample.idle
  = exec (Cases.touchy (VData (Pg.rows Witness.row)) undefined) Sample.idle.
Proof.
  apply (pgPromiseAdapter_calls_twice_on_throw Sample.idle Cases.touchy
           (Pg.rows Witness.row) (DArray [Witness.row])
           (VData (Pg.rows Witness.row)) Sample.idle);
    reflexivity.
Defined.

Lemma read_moves_position_witness :
  ticks Pg.respond 2
    (run_callback
       (read_then_tell Sample.handle (VData (DNum 2))
          (fun v => ConsoleError "result" v Ret))
       (Sample.pg_idle 0))
  = run_callback
      (ConsoleError "result"
         (VArray [null; VData (DBuffer [Byte.x01; Byte.x23]); null; VData (DNum 2)])
         Ret)
      (Build_world
         (Pg.Build_state (Pg.objects (Sample.pg 0))
            (<[0 := Pg.Build_descriptor 16385 2]> (Pg.descriptors (Sample.pg 0))))
         [] []
         ([] ++ [EQuery (read_query (VData (DNum 0)) 2);
                 EQuery (tell_query (VData (DNum 0)))])).
Proof.
  apply (read_moves_position (Sample.pg_idle 0) 0 2 (Pg.Build_descriptor 16385 0)
           Sample.testBuf (VData (DNum 16385))
           (fun v => ConsoleError "result" v Ret));
    reflexivity.
Defined.

Lemma seek_set_then_tell_witness :
  ticks Pg.respond 2
    (run_callback
       (seek_then_tell Sample.handle (VData (DNum 6))
          (VData (DNum LargeObject.SEEK_SET))
          (fun v => ConsoleError "result" v Ret))
       (Sample.pg_idle 2))
  = run_callback
      (ConsoleError "result"
         (VArray [null; VData (DNum 6); null; VData (DNum 6)]) Ret)
      (Build_world
         (Pg.Build_state (Pg.objects (Sample.pg 2))
            (<[0 := Pg.Build_descriptor 16385 6]> (Pg.descriptors (Sample.pg 2))))
         [] []
         ([] ++ [EQuery (Build_query "npg_lo_lseek64"
                           "SELECT lo_lseek64($1, $2, $3) as location"
                           [VData (DNum 0); VData (DNum 6);
                            VData (DNum LargeObject.SEEK_SET)]);
                 EQuery (tell_query (VData (DNum 0)))])).
Proof.
  apply (seek_set_then_tell (Sample.pg_idle 2) 0 6 (Pg.Build_descriptor 16385 2)
           Sample.testBuf (VData (DNum 16385))
           (fun v => ConsoleError "result" v Ret)).
  - reflexivity.
  - unfold open_at. repeat split; try reflexivity; vm_compute; discriminate.
  - vm_compute. split; discriminate.
Defined.

Lemma pump_reads_to_end_witness :
  pushed_bytes
    (pump Pg.respond (new_ReadStream Sample.handle (VData (DNum 3))) 3 4
       (Sample.pg_idle 0))
  = pushed_bytes (Sample.pg_idle 0) ++ drop (Z.to_nat 0) Sample.testBuf.
Proof.
  apply (pump_reads_to_end (new_ReadStream Sample.handle (VData (DNum 3))) 0 3
           Sample.testBuf ltac:(lia) eq_refl 4%nat (Sample.pg_idle 0)
           (Pg.Build_descriptor 16385 0));
    first [reflexivity | cbn; lia | vm_compute; lia].
Defined.

Lemma feed_in_order_witness :
  queries_of
    (ticks (Sample.always Witness.row) 2
       (run_callback
          (feed Witness.stream
             [VData (DBuffer Sample.bytes); VData (DBuffer Sample.testBuf)])
          Sample.idle))
  = queries_of Sample.idle
    ++ map (write_query (VData (DNum 0)))
         [VData (DBuffer Sample.bytes); VData (DBuffer Sample.testBuf)].
Proof.
  apply (feed_in_order (Sample.always Witness.row) Witness.stream
           [VData (DBuffer Sample.bytes); VData (DBuffer Sample.testBuf)]
           Sample.idle);
    reflexivity.
Defined.

Lemma missing_callback_by_adapter_witness :
  (perform Cases.failing (LargeObjectManager.unlink (VData (DNum 16385)) None)
     Sample.idle
   = Some (log (EUncaught (VData Cases.boom))
             (answered Sample.idle tt (unlink_query (VData (DNum 16385)))))
   /\ perform_pgPromise Cases.failing
        (LargeObjectManager.unlink (VData (DNum 16385)) None) Sample.idle
      = Some (log (EUncaught TypeError)
                (answered Sample.idle tt (unlink_query (VData (DNum 16385))))))
  /\ (perform (Sample.always Witness.row) (LargeObject.close Sample.handle None)
        Sample.idle
      = Some (answered Sample.idle tt (close_query (VData (DNum 0))))
      /\ perform_pgPromise (Sample.always Witness.row)
           (LargeObject.close Sample.handle None) Sample.idle
         = Some (log (EUncaught TypeError)
                   (answered Sample.idle tt (close_query (VData (DNum 0)))))).
Proof.
  split.
  - apply (missing_callback_by_adapter Cases.failing Sample.idle Sample.handle
             (VData (DNum 16385)) (VData (DBuffer Sample.bytes)) (VData (DNum 2))
             (VData (DNum 0)) (VData (DNum LargeObject.SEEK_SET))
             tt Cases.boom DUndefined);
      reflexivity.
  - apply (missing_callback_by_adapter (Sample.always Witness.row) Sample.idle
             Sample.handle
             (VData (DNum 16385)) (VData (DBuffer Sample.bytes)) (VData (DNum 2))
             (VData (DNum 0)) (VData (DNum LargeObject.SEEK_SET))
             tt DNull (Pg.rows Witness.row));
      reflexivity.
Defined.

Lemma unreadable_result_by_adapter_witness :
  perform Cases.empty (LargeObject.size Sample.handle Sample.report) Sample.idle
  = Some (log (EUncaught TypeError)
            (answered Sample.idle tt (size_query (VData (DNum 0)))))
  /\ perform_pgPromise Cases.empty (LargeObject.size Sample.handle Sample.report)
       Sample.idle
     = Some (log (EConsoleError "callback" (VArray [TypeError; undefined; undefined]))
               (answered Sample.idle tt (size_query (VData (DNum 0))))).
Proof.
  apply (unreadable_result_by_adapter Cases.empty Sample.idle Sample.handle
           (VData (DNum 16385)) (VData (DNum LargeObjectManager.READ))
           (VData (DNum 2)) (VData (DNum 0)) (VData (DNum LargeObject.SEEK_SET))
           Sample.report tt DNull no_rows TypeError);
    reflexivity.
Defined.

Lemma read_error_is_emitted_witness :
  (perform Cases.failing (ReadStream._read Witness.stream 16384) Sample.idle
   = Some (Build_world tt [] []
             [EQuery (read_query (VData (DNum 0)) 16384);
              EUncaught (VData Cases.boom)])
   /\ perform_pgPromise Cases.failing (ReadStream._read Witness.stream 16384)
        Sample.idle
      = Some (Build_world tt [] []
                [EQuery (read_query (VData (DNum 0)) 16384);
                 EUncaught (VData Cases.boom)]))
  /\ (perform Cases.failing (ReadStream._read Witness.listening 16384) Sample.idle
      = Some (Build_world tt [] []
                [EQuery (read_query (VData (DNum 0)) 16384);
                 EEmit "error" (VData Cases.boom);
                 EConsoleError "stream error" undefined])
      /\ perform_pgPromise Cases.failing (ReadStream._read Witness.listening 16384)
           Sample.idle
         = Some (Build_world tt [] []
                   [EQuery (read_query (VData (DNum 0)) 16384);
                    EEmit "error" (VData Cases.boom);
                    EConsoleError "stream error" undefined])).
Proof.
  split.
  - apply (read_error_is_emitted Cases.failing Sample.idle Witness.stream 16384
             tt Cases.boom DUndefined);
      [lia | reflexivity | reflexivity | reflexivity].
  - apply (read_error_is_emitted Cases.failing Sample.idle Witness.listening 16384
             tt Cases.boom DUndefined);
      [lia | reflexivity | reflexivity | reflexivity].
Defined.

Lemma read_without_row_by_adapter_witness :
  perform Cases.empty (ReadStream._read Witness.listening 16384) Sample.idle
  = Some (Build_world tt [] []
            [EQuery (read_query (VData (DNum 0)) 16384); EUncaught TypeError])
  /\ perform_pgPromise Cases.empty (ReadStream._read Witness.listening 16384)
       Sample.idle
     = Some (Build_world tt [] []
               [EQuery (read_query (VData (DNum 0)) 16384);
                EEmit "error" TypeError;
                EConsoleError "stream error" undefined]).
Proof.
  apply (read_without_row_by_adapter Cases.empty Sample.idle Witness.listening 16384
           tt DNull no_rows TypeError);
    [lia | reflexivity | reflexivity | reflexivity | reflexivity].
Defined.

Lemma read_null_data_by_adapter_witness :
  perform (Sample.always (DObject [("data", DNull)]))
    (ReadStream._read Witness.listening 16384) Sample.idle
  = Some (Build_world tt [] []
            [EQuery (read_query (VData (DNum 0)) 16384);
             EPush null; EUncaught TypeError])
  /\ perform_pgPromise (Sample.always (DObject [("data", DNull)]))
       (ReadStream._read Witness.listening 16384) Sample.idle
     = Some (Build_world tt [] []
               [EQuery (read_query (VData (DNum 0)) 16384);
                EPush null; EEmit "error" TypeError;
                EConsoleError "stream error" undefined]).
Proof.
  apply (read_null_data_by_adapter
           (Sample.always (DObject [("data", DNull)])) Sample.idle Witness.listening
           16384 tt DNull (Pg.rows (DObject [("data", DNull)])) DNull);
    [lia | reflexivity | reflexivity | reflexivity | reflexivity
     | left; reflexivity].
Defined.

Lemma createAndWritableStream_falsy_oid_witness :
  perform (Sample.always (DObject [("oid", DNum 0)]))
    (LargeObjectManager.createAndWritableStream (AFunction Sample.report) None)
    Sample.idle
  = Some (log (EUncaught IllegalArgument) (answered Sample.idle tt create_query))
  /\ perform_pgPromise (Sample.always (DObject [("oid", DNum 0)]))
       (LargeObjectManager.createAndWritableStream (AFunction Sample.report) None)
       Sample.idle
     = Some (log (EConsoleError "callback"
                    (VArray [IllegalArgument; undefined; undefined]))
               (answered Sample.idle tt create_query)).
Proof.
  apply (createAndWritableStream_falsy_oid
           (Sample.always (DObject [("oid", DNum 0)])) Sample.idle
           (AFunction Sample.report) None tt (VData (DNum 0))).
  - reflexivity.
  - exists DNull, (Pg.rows (DObject [("oid", DNum 0)])).
    split; [reflexivity | split; reflexivity].
  - reflexivity.
Defined.

Lemma unreadable_result_promise_by_adapter_witness :
  perform_async Cases.empty (LargeObject.readAsync Sample.handle (VData (DNum 2)))
    Sample.idle
  = (Some (Build_world tt [] [Pending]
             [EQuery (Build_query "npg_loread" "SELECT loread($1, $2) as data"
                        [VData (DNum 0); VData (DNum 2)]);
              EUncaught TypeError]),
     Normal 0%nat)
  /\ perform_async_pgPromise Cases.empty
       (LargeObject.readAsync Sample.handle (VData (DNum 2))) Sample.idle
     = (Some (Build_world tt [] [Rejected TypeError]
                [EQuery (Build_query "npg_loread" "SELECT loread($1, $2) as data"
                           [VData (DNum 0); VData (DNum 2)])]),
        Normal 0%nat).
Proof.
  apply (unreadable_result_promise_by_adapter Cases.empty Sample.idle
           Sample.handle (VData (DNum 16385)) (VData (DNum LargeObjectManager.READ))
           (VData (DNum 2)) tt DNull no_rows TypeError);
    reflexivity.
Defined.
